(** * Battle Map VTT: the synchronisation server [server_sync.py]

    A shallow embedding of the shared state, the persistence functions and
    the Socket.IO event handlers of [server_sync.py], and the properties of
    the design document checked against them.

    Modelling conventions.
    - Python values are the JSON values a Socket.IO payload or a [json.load]
      can hold: [None], booleans, integers, strings, lists and dictionaries.
      Numbers are integers; IEEE floats are outside the model.
    - A Python [dict] is an association list in insertion order, the order
      Python itself keeps ([str(token)] depends on it).
    - Every handler is run to completion on a [world]: the shared state, the
      files the server owns, and the log of what the handler did to the
      outside (broadcasts and persistence calls), in program order. The
      [await] of a broadcast is taken not to let another handler in.
    - What the program asks its environment (clock, local address, string
      hash, Base64 decoder, how a file operation ends) is read from an [env]
      record.
    - The functions of the persistence layer catch every exception and
      return a failure value; they are total functions here. A handler out
      of which an exception escapes (a [map] value that is true and has no
      [startswith]) has changed nothing by then: it is a handler that does
      nothing.
    - A payload is a JSON object, a [dict]. *)

From Stdlib Require Import List Bool Arith ZArith Lia.
From Stdlib Require Import Ascii String DecimalString.
From Stdlib.Strings Require Import Byte.
Import ListNotations.

Local Open Scope list_scope.
Local Open Scope string_scope.

Set Warnings "-register-all".

(* ================================================================== *)
(** ** Python values *)

Inductive pyval : Type :=
| PNone
| PBool (b : bool)
| PInt (z : Z)
| PStr (s : string)
| PList (l : list pyval)
| PDict (d : list (string * pyval)).

(** A Python dictionary with string keys, in insertion order. *)
Definition dict : Type := list (string * pyval).

(** [d[k]] when the key is there. *)
Fixpoint dict_lookup (d : dict) (k : string) : option pyval :=
  match d with
  | [] => None
  | (k', v) :: d' => if String.eqb k' k then Some v else dict_lookup d' k
  end.

(** [d.get(k, default)]. *)
Definition dict_get_default (d : dict) (k : string) (default : pyval) : pyval :=
  match dict_lookup d k with
  | Some v => v
  | None => default
  end.

(** [d.get(k)]. *)
Definition dict_get (d : dict) (k : string) : pyval :=
  dict_get_default d k PNone.

(** [d[k] = v]: the value is replaced where the key stands, a new key goes
    to the end. *)
Fixpoint dict_set (d : dict) (k : string) (v : pyval) : dict :=
  match d with
  | [] => [(k, v)]
  | (k', v') :: d' =>
      if String.eqb k' k then (k', v) :: d' else (k', v') :: dict_set d' k v
  end.

Definition dict_keys (d : dict) : list string := List.map fst d.

(** A dictionary holds each key once. *)
Definition dict_wf (d : dict) : Prop := NoDup (dict_keys d).

(** Python truth value: [bool(v)]. *)
Definition truthy (v : pyval) : bool :=
  match v with
  | PNone => false
  | PBool b => b
  | PInt z => negb (Z.eqb z 0)
  | PStr s => negb (String.eqb s "")
  | PList l => match l with [] => false | _ => true end
  | PDict d => match d with [] => false | _ => true end
  end.

(** Python [==] on these values: [True == 1] and [False == 0], lists are
    compared element by element, dictionaries key by key whatever the
    order. *)
Fixpoint py_eq (a b : pyval) {struct a} : bool :=
  match a, b with
  | PNone, PNone => true
  | PBool x, PBool y => Bool.eqb x y
  | PBool x, PInt z => Z.eqb z (if x then 1 else 0)
  | PInt z, PBool x => Z.eqb z (if x then 1 else 0)
  | PInt x, PInt y => Z.eqb x y
  | PStr s, PStr t => String.eqb s t
  | PList l, PList m =>
      (fix all2 (l m : list pyval) {struct l} : bool :=
         match l, m with
         | [], [] => true
         | x :: l', y :: m' => py_eq x y && all2 l' m'
         | _, _ => false
         end) l m
  | PDict d, PDict e =>
      Nat.eqb (List.length d) (List.length e)
      && (fix sub (d : list (string * pyval)) : bool :=
            match d with
            | [] => true
            | (k, v) :: d' =>
                match dict_lookup e k with
                | Some w => py_eq v w
                | None => false
                end && sub d'
            end) d
  | _, _ => false
  end.

(** ** Strings *)

(** [s.startswith(p)]. *)
Definition startswith (s p : string) : bool := String.prefix p s.

(** [s.split(c)] for a one-character separator. *)
Fixpoint split_on (c : ascii) (s : string) : list string :=
  match s with
  | EmptyString => [EmptyString]
  | String a s' =>
      if Ascii.eqb a c then EmptyString :: split_on c s'
      else
        match split_on c s' with
        | [] => [String a EmptyString]
        | hd :: tl => String a hd :: tl
        end
  end.

(** [s.split(c, 1)]: the text before the first [c] and the text after it,
    or nothing when [s] holds no [c] (the source then fails to unpack the
    one-element list into two names). *)
Fixpoint split_once (c : ascii) (s : string) : option (string * string) :=
  match s with
  | EmptyString => None
  | String a s' =>
      if Ascii.eqb a c then Some (EmptyString, s')
      else
        match split_once c s' with
        | Some (hd, tl) => Some (String a hd, tl)
        | None => None
        end
  end.

(** [str(n)] of a Python integer. *)
Definition str_of_Z (z : Z) : string := NilZero.string_of_int (Z.to_int z).

(** [s.endswith(p)]. *)
Definition endswith (s p : string) : bool :=
  let n := String.length s in
  let m := String.length p in
  Nat.leb m n && String.eqb (String.substring (n - m) m s) p.

(** The text an f-string gives for [{v}]. The text of a non-empty list or
    dictionary is Python's [repr], taken from outside. *)
Definition py_str (repr : pyval -> string) (v : pyval) : string :=
  match v with
  | PNone => "None"
  | PBool true => "True"
  | PBool false => "False"
  | PInt z => str_of_Z z
  | PStr s => s
  | PList [] => "[]"
  | PDict [] => "{}"
  | _ => repr v
  end.

(* ================================================================== *)
(** ** Environment, files and the world a handler runs on *)

(** How [with open(path, 'w') as f: ...write...] ends: the file is written;
    [open] raises and nothing changes; or the file is created or emptied
    and the write raises, which leaves it incomplete. *)
Inductive write_outcome : Type :=
| WriteOk
| OpenError
| WriteError.

Definition written (o : write_outcome) : bool :=
  match o with
  | WriteOk => true
  | OpenError | WriteError => false
  end.

(** What the server reads from outside during one handler. *)
Record env : Type := {
  now : Z;                                   (* int(time.time()) *)
  local_ip : string;                         (* get_local_ip() *)
  hash_str : dict -> Z;                      (* hash(str(token)) *)
  py_repr : pyval -> string;                 (* repr of a container *)
  b64decode : string -> option (list byte);  (* base64.b64decode, None when it raises *)
  remove_ok : string -> bool;                (* os.remove on that image file succeeds *)
  image_write : string -> write_outcome;     (* writing that image file *)
  map_write : write_outcome;                 (* writing MAP_SAVE_FILE *)
  tokens_write : write_outcome;              (* writing TOKENS_SAVE_FILE *)
  torn : list byte -> list byte              (* what a failed write leaves of the data *)
}.

Definition image_write_ok (e : env) (name : string) : bool :=
  written (image_write e name).

Definition map_write_ok (e : env) : bool := written (map_write e).

Definition tokens_write_ok (e : env) : bool := written (tokens_write e).

Definition PORT : Z := 9000.

Definition get_local_ip (e : env) : string := local_ip e.

(** A JSON record on disk: absent, present but not readable, present but
    not JSON, or holding the value [json.load] returns. [json.dump] followed
    by [json.load] gives back a value of [pyval] as it was. *)
Inductive file_state : Type :=
| FileAbsent
| FileUnreadable
| FileGarbage
| FileJson (v : pyval).

Record disk : Type := {
  maps_dir : list (string * list byte);   (* MAP_IMAGES_DIR: name and content *)
  map_save_file : file_state;             (* MAP_SAVE_FILE, saved_map.json *)
  tokens_save_file : file_state           (* TOKENS_SAVE_FILE, saved_tokens.json *)
}.

(** The state shared by all clients: [shared_state] of the source. *)
Record shared_state : Type := {
  tokens : list dict;   (* shared_state['tokens'] *)
  map_ref : pyval       (* shared_state['map'] *)
}.

(** Who receives an [sio.emit]. *)
Inductive audience : Type :=
| ToAll                      (* sio.emit(ev, data) *)
| ToSid (sid : string)       (* sio.emit(ev, data, to=sid) *)
| SkipSid (sid : string).    (* sio.emit(ev, data, skip_sid=sid) *)

(** What a handler does to the outside, in program order. *)
Inductive action : Type :=
| Emit (event : string) (payload : pyval) (to : audience)
| SaveTokens (ok : bool)     (* save_tokens() returned ok *)
| SaveMap (ok : bool).       (* save_map(..) returned ok *)

Record world : Type := {
  shared : shared_state;
  files : disk;
  log : list action
}.

(** *** A state monad over the world *)

Definition M (A : Type) : Type := world -> A * world.

Definition ret {A : Type} (a : A) : M A := fun w => (a, w).

Definition bind {A B : Type} (c : M A) (k : A -> M B) : M B :=
  fun w => let (a, w') := c w in k a w'.

Notation "x <- c ;; k" := (bind c (fun x => k))
  (at level 61, c at next level, right associativity).
Notation "c ;; k" := (bind c (fun _ => k))
  (at level 61, right associativity).

Definition run {A : Type} (c : M A) (w : world) : world := snd (c w).

Definition get_shared : M shared_state := fun w => (shared w, w).

Definition put_shared (s : shared_state) : M unit :=
  fun w => (tt, {| shared := s; files := files w; log := log w |}).

Definition get_files : M disk := fun w => (files w, w).

Definition put_files (d : disk) : M unit :=
  fun w => (tt, {| shared := shared w; files := d; log := log w |}).

Definition record (a : action) : M unit :=
  fun w => (tt, {| shared := shared w; files := files w; log := (log w ++ [a])%list |}).

Definition get_tokens : M (list dict) := s <- get_shared ;; ret (tokens s).

Definition set_tokens (ts : list dict) : M unit :=
  s <- get_shared ;; put_shared {| tokens := ts; map_ref := map_ref s |}.

Definition get_map : M pyval := s <- get_shared ;; ret (map_ref s).

Definition set_map (m : pyval) : M unit :=
  s <- get_shared ;; put_shared {| tokens := tokens s; map_ref := m |}.

(** [await sio.emit(event, payload, ...)]. *)
Definition sio_emit (event : string) (payload : pyval) (to : audience) : M unit :=
  record (Emit event payload to).

(* ================================================================== *)
(** ** Persistence: map images, map record, token record *)

(** [os.listdir(MAP_IMAGES_DIR)]. *)
Definition listdir (dir : list (string * list byte)) : list string :=
  List.map fst dir.

(** [os.remove] of a file of the images directory. *)
Definition dir_remove (dir : list (string * list byte)) (name : string)
  : list (string * list byte) :=
  List.filter (fun f => negb (String.eqb (fst f) name)) dir.

(** [open(path, 'wb')] then [write]: the file is replaced or created. *)
Fixpoint dir_write (dir : list (string * list byte)) (name : string)
  (data : list byte) : list (string * list byte) :=
  match dir with
  | [] => [(name, data)]
  | (n, c) :: dir' =>
      if String.eqb n name then (n, data) :: dir'
      else (n, c) :: dir_write dir' name data
  end.

(** One turn of the clean-up loop of [extract_and_save_map_image]: a file
    whose name starts with [current_map.] is removed; a removal that raises
    [OSError] is reported and the loop goes on. *)
Definition remove_step (e : env) (d : list (string * list byte))
  (old_file : string) : list (string * list byte) :=
  if startswith old_file "current_map." then
    if remove_ok e old_file then dir_remove d old_file else d
  else d.

(** [for old_file in os.listdir(MAP_IMAGES_DIR): ...]. *)
Definition remove_old_maps (e : env) (dir : list (string * list byte))
  : list (string * list byte) :=
  List.fold_left (remove_step e) (listdir dir) dir.

Definition set_maps_dir (d : disk) (dir : list (string * list byte)) : disk :=
  {| maps_dir := dir;
     map_save_file := map_save_file d;
     tokens_save_file := tokens_save_file d |}.

Definition set_map_save_file (d : disk) (f : file_state) : disk :=
  {| maps_dir := maps_dir d;
     map_save_file := f;
     tokens_save_file := tokens_save_file d |}.

Definition set_tokens_save_file (d : disk) (f : file_state) : disk :=
  {| maps_dir := maps_dir d;
     map_save_file := map_save_file d;
     tokens_save_file := f |}.

(** [extract_and_save_map_image(map_data_url)]: the relative URL of the
    stored image, or [None]. Every exception of the body is caught by the
    one [except Exception] and gives [None]; what was done to the directory
    before it stays done. *)
Definition extract_and_save_map_image (e : env) (map_data_url : string)
  : M (option string) :=
  if negb (truthy (PStr map_data_url))
     || negb (startswith map_data_url "data:image/")
  then ret None
  else
    match split_once "," map_data_url with
    | None => ret None                              (* unpacking fails *)
    | Some (header, encoded) =>
        match nth_error (split_on ";" header) 0 with
        | None => ret None
        | Some before_semi =>
            match nth_error (split_on ":" before_semi) 1 with
            | None => ret None                      (* IndexError *)
            | Some mime_type =>
                match nth_error (split_on "/" mime_type) 1 with
                | None => ret None                  (* IndexError *)
                | Some extension =>
                    let new_map_filename := "current_map." ++ extension in
                    d <- get_files ;;
                    put_files (set_maps_dir d (remove_old_maps e (maps_dir d))) ;;
                    match b64decode e encoded with
                    | None => ret None              (* binascii.Error *)
                    | Some binary_data =>
                        d <- get_files ;;
                        match image_write e new_map_filename with
                        | WriteOk =>
                            put_files
                              (set_maps_dir d
                                 (dir_write (maps_dir d) new_map_filename
                                    binary_data)) ;;
                            ret (Some ("/maps/" ++ new_map_filename))
                        | OpenError => ret None
                        | WriteError =>
                            put_files
                              (set_maps_dir d
                                 (dir_write (maps_dir d) new_map_filename
                                    (torn e binary_data))) ;;
                            ret None
                        end
                    end
                end
            end
        end
    end.

(** The body of [save_map] after the emptiness test, up to the write. *)
Definition save_map_write (e : env) (map_url_to_save : string) : M bool :=
  d <- get_files ;;
  match map_write e with
  | WriteOk =>
      put_files
        (set_map_save_file d
           (FileJson (PDict [("map", PStr map_url_to_save)]))) ;;
      ret true
  | OpenError => ret false
  | WriteError => put_files (set_map_save_file d FileGarbage) ;; ret false
  end.

(** [save_map(map_data)]. *)
Definition save_map (e : env) (map_data : pyval) : M bool :=
  ok <- (if negb (truthy map_data) then ret false
         else
           match map_data with
           | PStr s =>
               if startswith s "data:image/" then
                 extracted_url <- extract_and_save_map_image e s ;;
                 match extracted_url with
                 | Some u =>
                     if truthy (PStr u) then save_map_write e u else ret false
                 | None => ret false
                 end
               else save_map_write e s
           | _ => ret false                         (* no startswith: caught *)
           end) ;;
  record (SaveMap ok) ;;
  ret ok.

(** [load_saved_map()]. *)
Definition load_saved_map (d : disk) : pyval :=
  match map_save_file d with
  | FileJson (PDict data) =>
      let map_data := dict_get data "map" in
      if truthy map_data then map_data else PNone
  | FileJson _ => PNone                             (* no .get: caught *)
  | FileAbsent | FileUnreadable | FileGarbage => PNone
  end.

(** [find_token(token_id)]: the first token whose [id] equals [token_id],
    with its place in the list (the source returns the object itself, and
    writes through it). *)
Fixpoint find_token_from (i : nat) (ts : list dict) (token_id : pyval)
  : option (nat * dict) :=
  match ts with
  | [] => None
  | t :: ts' =>
      if py_eq (dict_get t "id") token_id then Some (i, t)
      else find_token_from (S i) ts' token_id
  end.

Definition find_token (ts : list dict) (token_id : pyval)
  : option (nat * dict) :=
  find_token_from 0 ts token_id.

(** The document [save_tokens] writes. *)
Definition tokens_document (ts : list dict) : pyval :=
  PDict [("tokens", PList (List.map PDict ts))].

(** [save_tokens()]. *)
Definition save_tokens (e : env) : M bool :=
  ts <- get_tokens ;;
  d <- get_files ;;
  ok <- match tokens_write e with
        | WriteOk =>
            put_files
              (set_tokens_save_file d (FileJson (tokens_document ts))) ;;
            ret true
        | OpenError => ret false
        | WriteError =>
            put_files (set_tokens_save_file d FileGarbage) ;; ret false
        end ;;
  record (SaveTokens ok) ;;
  ret ok.

(** [len(v)] is defined. *)
Definition has_len (v : pyval) : bool :=
  match v with
  | PStr _ | PList _ | PDict _ => true
  | _ => false
  end.

(** [load_saved_tokens()]: what stands under [tokens] in the record, the
    empty list when there is none. The log line calls [len] on the value,
    which raises on a value without a length; the handler of the exception
    then returns the empty list. *)
Definition load_saved_tokens (d : disk) : pyval :=
  match tokens_save_file d with
  | FileJson (PDict data) =>
      let ts := dict_get_default data "tokens" (PList []) in
      if has_len ts then ts else PList []
  | FileJson _ => PList []
  | FileAbsent | FileUnreadable | FileGarbage => PList []
  end.

(** A loaded value as a list of tokens, when it is one. *)
Fixpoint as_token_list (l : list pyval) : option (list dict) :=
  match l with
  | [] => Some []
  | PDict t :: l' =>
      match as_token_list l' with
      | Some ts => Some (t :: ts)
      | None => None
      end
  | _ :: _ => None
  end.

Definition as_tokens (v : pyval) : option (list dict) :=
  match v with
  | PList l => as_token_list l
  | _ => None
  end.

(** Server start: the shared state is loaded from the two records. *)
Definition startup (d : disk) : option world :=
  match as_tokens (load_saved_tokens d) with
  | Some ts =>
      Some {| shared := {| tokens := ts; map_ref := load_saved_map d |};
              files := d;
              log := [] |}
  | None => None
  end.

(* ================================================================== *)
(** ** The Socket.IO event handlers *)

(** [l[i] = x] on a list. *)
Fixpoint list_assign {A : Type} (l : list A) (i : nat) (x : A) : list A :=
  match l, i with
  | [], _ => []
  | _ :: l', O => x :: l'
  | y :: l', S i' => y :: list_assign l' i' x
  end.

(** The identifier [request_initial_state] gives a token that has none:
    [f"server-token-{len(shared_state['tokens'])}-{hash(str(token))}"]. *)
Definition server_token_id (e : env) (n : nat) (token : dict) : string :=
  "server-token-" ++ str_of_Z (Z.of_nat n) ++ "-" ++ str_of_Z (hash_str e token).

(** One turn of the loop of [request_initial_state]. *)
Definition backfill_id (e : env) (n : nat) (token : dict) : dict :=
  if negb (truthy (dict_get token "id")) then
    dict_set token "id" (PStr (server_token_id e n token))
  else token.

(** [request_initial_state(sid)]. The loop writes into each token of the
    list in turn; [len(shared_state['tokens'])] is the same at every turn. *)
Definition request_initial_state (e : env) (sid : string) : M unit :=
  ts <- get_tokens ;;
  set_tokens (List.map (backfill_id e (List.length ts)) ts) ;;
  m <- get_map ;;
  let map_url_for_client :=
    if truthy m then PStr (py_str (py_repr e) m ++ "?t=" ++ str_of_Z (now e))
    else m in
  ts' <- get_tokens ;;
  sio_emit "initial_state"
    (PDict [("tokens", PList (List.map PDict ts')); ("map", map_url_for_client)])
    (ToSid sid).

(** The token [move_token] builds when the identifier is unknown. *)
Definition recovered_token (data : dict) : dict :=
  [ ("id", dict_get data "id");
    ("x", dict_get data "x");
    ("y", dict_get data "y");
    ("size", dict_get_default data "size" (PInt 50));
    ("color", dict_get_default data "color" (PStr "blue"));
    ("name", dict_get_default data "name" (PStr "Token"));
    ("portraitUrl", dict_get data "portraitUrl") ].

(** [token = find_token(token_id)] followed by [if token:]: a token that
    was found and is not the empty dictionary. *)
Definition found_token (ts : list dict) (token_id : pyval)
  : option (nat * dict) :=
  match find_token ts token_id with
  | Some (i, token) => if truthy (PDict token) then Some (i, token) else None
  | None => None
  end.

(** [move_token(sid, data)]. *)
Definition move_token (e : env) (sid : string) (data : dict) : M unit :=
  let token_id := dict_get data "id" in
  ts <- get_tokens ;;
  match found_token ts token_id with
  | Some (i, token) =>
      let token := dict_set token "x" (dict_get data "x") in
      let token := dict_set token "y" (dict_get data "y") in
      set_tokens (list_assign ts i token) ;;
      sio_emit "token_moved" (PDict data) (SkipSid sid) ;;
      save_tokens e ;;
      ret tt
  | None =>
      let new_token := recovered_token data in
      set_tokens (ts ++ [new_token])%list ;;
      sio_emit "token_added" (PDict new_token) ToAll ;;
      sio_emit "token_moved" (PDict data) (SkipSid sid) ;;
      save_tokens e ;;
      ret tt
  end.

(** [for key, value in data.items(): existing_token[key] = value]. *)
Definition merge_fields (existing_token data : dict) : dict :=
  List.fold_left (fun t kv => dict_set t (fst kv) (snd kv)) data existing_token.

(** [add_token(sid, data)]. *)
Definition add_token (e : env) (sid : string) (data : dict) : M unit :=
  if negb (truthy (PDict data)) || negb (truthy (dict_get data "id")) then
    ret tt
  else
    let token_id := dict_get data "id" in
    ts <- get_tokens ;;
    match found_token ts token_id with
    | Some (i, existing_token) =>
        set_tokens (list_assign ts i (merge_fields existing_token data)) ;;
        sio_emit "token_updated" (PDict data) (SkipSid sid)
    | None =>
        set_tokens (ts ++ [data])%list ;;
        sio_emit "token_added" (PDict data) (SkipSid sid) ;;
        save_tokens e ;;
        ret tt
    end.

(** [remove_token(sid, data)]. *)
Definition remove_token (e : env) (sid : string) (data : dict) : M unit :=
  let token_id := dict_get data "id" in
  ts <- get_tokens ;;
  let initial_len := List.length ts in
  let kept :=
    List.filter (fun t => negb (py_eq (dict_get t "id") token_id)) ts in
  set_tokens kept ;;
  if Nat.ltb (List.length kept) initial_len then
    sio_emit "token_removed" (PDict data) (SkipSid sid) ;;
    save_tokens e ;;
    ret tt
  else ret tt.

(** [change_map(sid, data)]. A [map] value that is true and has no
    [startswith] (a number, a non-empty list) makes the test raise before
    anything was done: the handler ends there. *)
Definition change_map (e : env) (sid : string) (data : dict) : M unit :=
  let map_data := dict_get data "map" in
  let direct : M unit :=
    set_map map_data ;;
    save_map e map_data ;;
    let map_url_for_client :=
      py_str (py_repr e) map_data ++ "?t=" ++ str_of_Z (now e) in
    sio_emit "map_changed" (PDict [("map", PStr map_url_for_client)]) ToAll in
  if truthy map_data then
    match map_data with
    | PStr s =>
        if startswith s "data:image/" then
          extracted_url <- extract_and_save_map_image e s ;;
          match extracted_url with
          | Some u =>
              if truthy (PStr u) then
                set_map (PStr u) ;;
                save_map e (PStr u) ;;
                let server_ip := get_local_ip e in
                let full_url :=
                  "http://" ++ server_ip ++ ":" ++ str_of_Z PORT ++ u
                  ++ "?t=" ++ str_of_Z (now e) in
                sio_emit "map_changed" (PDict [("map", PStr full_url)]) ToAll
              else ret tt
          | None => ret tt
          end
        else direct
    | _ => ret tt
    end
  else direct.

(** [request_current_map(sid)]. A stored map that is true and has no
    [startswith] makes the test raise before anything is sent. *)
Definition request_current_map (e : env) (sid : string) : M unit :=
  map_url <- get_map ;;
  if truthy map_url then
    match map_url with
    | PStr s =>
        if negb (startswith s "http://" || startswith s "https://") then
          let full_url :=
            "http://" ++ get_local_ip e ++ ":" ++ str_of_Z PORT ++ s
            ++ "?t=" ++ str_of_Z (now e) in
          sio_emit "map_changed" (PDict [("map", PStr full_url)]) (ToSid sid)
        else
          sio_emit "map_changed"
            (PDict [("map", PStr (s ++ "?t=" ++ str_of_Z (now e)))]) (ToSid sid)
    | _ => ret tt
    end
  else sio_emit "no_map_available" (PDict []) (ToSid sid).

(** [clear_all_tokens(sid)]. *)
Definition clear_all_tokens (e : env) (sid : string) : M unit :=
  set_tokens [] ;;
  save_tokens e ;;
  sio_emit "all_tokens_cleared" (PDict []) (SkipSid sid).

(** What a handler added to the log. *)
Definition done_by (c : M unit) (w : world) : list action :=
  List.skipn (List.length (log w)) (log (run c w)).

(* ================================================================== *)
(** ** Event dispatch *)

(** The events a client can send; [@sio.event] registers each handler
    under its own name. *)
Inductive event : Type :=
| Connect
| RequestInitialState
| MoveToken (data : dict)
| AddToken (data : dict)
| RemoveToken (data : dict)
| ChangeMap (data : dict)
| RequestCurrentMap
| ClearAllTokens.

(** [connect(sid, environ)]: a log line only. *)
Definition connect (sid : string) : M unit := ret tt.

(** The handler an event is dispatched to. *)
Definition handle (e : env) (sid : string) (ev : event) : M unit :=
  match ev with
  | Connect => connect sid
  | RequestInitialState => request_initial_state e sid
  | MoveToken data => move_token e sid data
  | AddToken data => add_token e sid data
  | RemoveToken data => remove_token e sid data
  | ChangeMap data => change_map e sid data
  | RequestCurrentMap => request_current_map e sid
  | ClearAllTokens => clear_all_tokens e sid
  end.

(** One event as it reaches the server: what the environment answers while
    it is handled, the session it comes from, and the event. *)
Record arrival : Type := {
  at_env : env;
  at_sid : string;
  at_event : event
}.

(** The server handles the events one after the other. *)
Fixpoint serve (evs : list arrival) (w : world) : world :=
  match evs with
  | [] => w
  | a :: rest => serve rest (run (handle (at_env a) (at_sid a) (at_event a)) w)
  end.

(* ================================================================== *)
(** ** The properties that are checked *)

(** *** Order of persistence calls and broadcasts in a handler's log *)

Definition is_save (a : action) : bool :=
  match a with
  | SaveTokens _ | SaveMap _ => true
  | Emit _ _ _ => false
  end.

Definition is_emit (a : action) : bool :=
  match a with
  | Emit _ _ _ => true
  | SaveTokens _ | SaveMap _ => false
  end.

(** No persistence call comes after a broadcast. *)
Fixpoint saves_before_emits (l : list action) : bool :=
  match l with
  | [] => true
  | a :: l' =>
      (if is_emit a then negb (List.existsb is_save l') else true)
      && saves_before_emits l'
  end.

(** *** The token record against the token list *)

(** The token record on disk holds the list [ts]. *)
Definition persisted_tokens (d : disk) (ts : list dict) : Prop :=
  tokens_save_file d = FileJson (tokens_document ts).

(** The files after a call of [save_tokens] on the token list [ts]. *)
Definition files_after_save (e : env) (d : disk) (ts : list dict) : disk :=
  match tokens_write e with
  | WriteOk => set_tokens_save_file d (FileJson (tokens_document ts))
  | OpenError => d
  | WriteError => set_tokens_save_file d FileGarbage
  end.

(** What [move_token] makes of a token it found. *)
Definition moved_token (token data : dict) : dict :=
  dict_set (dict_set token "x" (dict_get data "x")) "y" (dict_get data "y").

(** *** Token identifiers *)

Definition token_id (t : dict) : pyval := dict_get t "id".

(** Two identifiers clash when both are identifiers (the source takes a
    missing, null or empty [id] for none) and they are equal. *)
Definition clash (a b : pyval) : bool :=
  truthy a && truthy b && py_eq a b.

Fixpoint distinct_ids (ids : list pyval) : bool :=
  match ids with
  | [] => true
  | a :: rest => negb (List.existsb (clash a) rest) && distinct_ids rest
  end.

(** No two tokens of the list share an [id]. *)
Definition ids_unique (ts : list dict) : bool :=
  distinct_ids (List.map token_id ts).

(** An identifier that is not a list or a dictionary. *)
Definition is_scalar (v : pyval) : bool :=
  match v with
  | PList _ | PDict _ => false
  | _ => true
  end.

(** The fields the auto-recovery of [move_token] copies. *)
Definition known_fields : list string :=
  ["id"; "x"; "y"; "size"; "color"; "name"; "portraitUrl"].

(** What the auto-recovery stores for a known field the payload lacks. *)
Definition default_field (k : string) : pyval :=
  if String.eqb k "size" then PInt 50
  else if String.eqb k "color" then PStr "blue"
  else if String.eqb k "name" then PStr "Token"
  else PNone.

(** *** Map images *)

(** The stored map images: the files of the directory whose name starts
    with [current_map.]. *)
Definition current_maps (dir : list (string * list byte)) : list string :=
  List.filter (fun n => startswith n "current_map.") (listdir dir).

(** *** Further properties *)

(** The character [c] does not occur in [s]. *)
Fixpoint no_char (c : ascii) (s : string) : bool :=
  match s with
  | EmptyString => true
  | String a s' => negb (Ascii.eqb a c) && no_char c s'
  end.

(** A data URL [data:image/<subtype>;<params>,<payload>]. *)
Definition data_url (subtype params payload : string) : string :=
  "data:image/" ++ subtype ++ ";" ++ params ++ "," ++ payload.

(** The content of a file of the images directory. *)
Fixpoint dir_lookup (dir : list (string * list byte)) (name : string)
  : option (list byte) :=
  match dir with
  | [] => None
  | (n, c) :: dir' => if String.eqb n name then Some c else dir_lookup dir' name
  end.

(** A map reference that is not an inline image. *)
Definition inline_free (v : pyval) : bool :=
  match v with
  | PStr s => negb (startswith s "data:image/")
  | _ => true
  end.

(** A map record that holds no inline image. *)
Definition record_inline_free (f : file_state) : bool :=
  match f with
  | FileJson (PDict data) => inline_free (dict_get data "map")
  | _ => true
  end.

(** Neither the shared state nor the map record holds an inline image. *)
Definition no_inline_image (w : world) : bool :=
  inline_free (map_ref (shared w))
  && record_inline_free (map_save_file (files w)).

(** A restart would show the map that is shown now. *)
Definition map_persisted (w : world) : Prop :=
  load_saved_map (files w) = map_ref (shared w).

(** The events that are about tokens, and the one that is about the map. *)
Definition token_event (ev : event) : bool :=
  match ev with
  | RequestInitialState | MoveToken _ | AddToken _ | RemoveToken _
  | ClearAllTokens => true
  | Connect | ChangeMap _ | RequestCurrentMap => false
  end.

Definition map_event (ev : event) : bool :=
  match ev with
  | ChangeMap _ => true
  | _ => false
  end.

(** Every token of the list has an identifier. *)
Definition all_have_id (ts : list dict) : bool :=
  List.forallb (fun t => truthy (token_id t)) ts.

(** The map record after the write of [save_map]. *)
Definition record_after_write (e : env) (old : file_state) (u : string)
  : file_state :=
  match map_write e with
  | WriteOk => FileJson (PDict [("map", PStr u)])
  | OpenError => old
  | WriteError => FileGarbage
  end.


(** Every removal of an old map image succeeds. *)
Definition removals_succeed (e : env) : Prop :=
  forall n, startswith n "current_map." = true -> remove_ok e n = true.

(** The images directory holds one map image at most. *)
Definition one_map_image_at_most (w : world) : Prop :=
  List.length (current_maps (maps_dir (files w))) <= 1.

(** The events that ask for a reply. *)
Definition request_event (ev : event) : bool :=
  match ev with
  | RequestInitialState | RequestCurrentMap => true
  | _ => false
  end.

(** An action fits the event of session [sid] it was done for: a message
    to one session goes to [sid] and answers a request; a message to all
    but one skips [sid] and reports a token event; a message to all comes
    from [change_map] or from the auto-recovery of [move_token]; the token
    record is saved for token events, the map record for map events. *)
Definition fits_event (sid : string) (ev : event) (a : action) : bool :=
  match a with
  | Emit _ _ (ToSid s) => String.eqb s sid && request_event ev
  | Emit _ _ (SkipSid s) => String.eqb s sid && token_event ev
  | Emit _ _ ToAll =>
      match ev with
      | ChangeMap _ | MoveToken _ => true
      | _ => false
      end
  | SaveTokens _ => token_event ev
  | SaveMap _ => map_event ev
  end.

(* ================================================================== *)
(** ** The Base64 decoder of the standard library *)

(** The table of [binascii]: the value of a character of the Base64
    alphabet ([A]-[Z], [a]-[z], [0]-[9], [+], [/]); no value for any other
    character. *)
Definition table_a2b_base64 (c : ascii) : option Z :=
  let n := Z.of_N (N_of_ascii c) in
  if ((65 <=? n) && (n <=? 90))%Z then Some (n - 65)%Z
  else if ((97 <=? n) && (n <=? 122))%Z then Some (n - 71)%Z
  else if ((48 <=? n) && (n <=? 57))%Z then Some (n + 4)%Z
  else if (n =? 43)%Z then Some 62%Z
  else if (n =? 47)%Z then Some 63%Z
  else None.

Definition byte_of_Z (z : Z) : byte :=
  match Byte.of_N (Z.to_N z) with
  | Some b => b
  | None => x00
  end.

(** The loop of [binascii.a2b_base64] as [base64.b64decode] calls it, that
    is without validation: a character outside the alphabet is skipped; a
    [=] counts as padding only from the third place of a group of four on,
    and padding that completes the group ends the decoding, whatever
    follows; the end of the text inside a group is an error ([None]).
    [quad_pos] is the place in the group, [leftchar] the bits not yet
    written, [pads] the padding seen since the last character of the
    alphabet. *)
Fixpoint a2b_base64 (s : string) (quad_pos : nat) (leftchar : Z) (pads : nat)
  : option (list byte) :=
  match s with
  | EmptyString => if Nat.eqb quad_pos 0 then Some [] else None
  | String c s' =>
      if Ascii.eqb c "="%char then
        if Nat.leb 2 quad_pos then
          if Nat.leb 4 (quad_pos + S pads) then Some []
          else a2b_base64 s' quad_pos leftchar (S pads)
        else a2b_base64 s' quad_pos leftchar pads
      else
        match table_a2b_base64 c with
        | None => a2b_base64 s' quad_pos leftchar pads
        | Some this_ch =>
            match quad_pos with
            | 0 => a2b_base64 s' 1 this_ch 0
            | 1 =>
                option_map
                  (cons (byte_of_Z (Z.lor (Z.shiftl leftchar 2)
                                      (Z.shiftr this_ch 4))))
                  (a2b_base64 s' 2 (Z.land this_ch 15) 0)
            | 2 =>
                option_map
                  (cons (byte_of_Z (Z.lor (Z.shiftl leftchar 4)
                                      (Z.shiftr this_ch 2))))
                  (a2b_base64 s' 3 (Z.land this_ch 3) 0)
            | _ =>
                option_map
                  (cons (byte_of_Z (Z.lor (Z.shiftl leftchar 6) this_ch)))
                  (a2b_base64 s' 0 0%Z 0)
            end
        end
  end.

(** A text has ASCII characters only. *)
Fixpoint is_ascii (s : string) : bool :=
  match s with
  | EmptyString => true
  | String c s' => (N_of_ascii c <? 128)%N && is_ascii s'
  end.

(** [base64.b64decode(s)] for a text [s]: the text is encoded as ASCII
    (a [ValueError] when it cannot be) and decoded without validation
    (a [binascii.Error] when the padding is wrong). [None] when it raises. *)
Definition base64_b64decode (s : string) : option (list byte) :=
  if is_ascii s then a2b_base64 s 0 0%Z 0 else None.

(* ================================================================== *)
(** ** Worked inputs *)

(** An environment in which every file operation succeeds; the decoder is
    the one of the standard library. *)
Definition env_ok : env :=
  {| now := 1700000000;
     local_ip := "192.168.1.5";
     hash_str := fun _ => 42%Z;
     py_repr := fun _ => "";
     b64decode := base64_b64decode;
     remove_ok := fun _ => true;
     image_write := fun _ => WriteOk;
     map_write := WriteOk;
     tokens_write := WriteOk;
     torn := fun _ => [] |}.

(** An environment in which an old image cannot be removed (the file is
    held open, or protected). *)
Definition env_locked : env :=
  {| now := now env_ok;
     local_ip := local_ip env_ok;
     hash_str := hash_str env_ok;
     py_repr := py_repr env_ok;
     b64decode := b64decode env_ok;
     remove_ok := fun _ => false;
     image_write := fun _ => WriteOk;
     map_write := WriteOk;
     tokens_write := WriteOk;
     torn := fun _ => [] |}.

Definition disk_empty : disk :=
  {| maps_dir := [];
     map_save_file := FileAbsent;
     tokens_save_file := FileAbsent |}.

(** A map record holding [v] under [map]. *)
Definition disk_with_map (v : pyval) : disk :=
  set_map_save_file disk_empty (FileJson (PDict [("map", v)])).

(** A server holding the tokens [ts], with the token record in step. *)
Definition world_of (ts : list dict) : world :=
  {| shared := {| tokens := ts; map_ref := PNone |};
     files := set_tokens_save_file disk_empty (FileJson (tokens_document ts));
     log := [] |}.

(** A server showing a map, without tokens. *)
Definition world_with_map : world :=
  {| shared := {| tokens := []; map_ref := PStr "/maps/current_map.png" |};
     files := disk_empty;
     log := [] |}.

(** A server whose images directory holds a JPEG map. *)
Definition world_with_jpg : world :=
  {| shared := {| tokens := []; map_ref := PStr "/maps/current_map.jpg" |};
     files := set_maps_dir disk_empty [("current_map.jpg", [x01; x02])];
     log := [] |}.

Definition token_t1 : dict :=
  [("id", PStr "t1"); ("x", PInt 0); ("y", PInt 0)].

(** A token as a hand-written or older token record can hold it: no [id]. *)
Definition goblin : dict :=
  [("name", PStr "Goblin"); ("x", PInt 1); ("y", PInt 2)].

Definition move_t1 : dict := [("id", PStr "t1"); ("x", PInt 3); ("y", PInt 4)].

Definition update_t1 : dict := [("id", PStr "t1"); ("x", PInt 5)].

Definition add_t1_hp : dict :=
  [("id", PStr "t1"); ("x", PInt 7); ("hp", PInt 10)].

Definition move_no_id : dict := [("x", PInt 3); ("y", PInt 4)].

Definition move_t9 : dict :=
  [("id", PStr "t9"); ("x", PInt 1); ("y", PInt 2); ("hp", PInt 10)].

Definition change_to_url : dict := [("map", PStr "https://host/x.png")].

(** The token an auto-recovery makes of [move_no_id]. *)
Definition stray_token : dict := recovered_token move_no_id.

(** The events of the second failing input, from an empty server: a move
    without [id] adds a stray token; a first [request_initial_state] names
    it; a client adds a token under the name the next back-fill will make,
    and removes the first one; a second move without [id] adds the stray
    token again. *)
Definition collision_run (e : env) : world :=
  let crafted := PStr (server_token_id e 2 stray_token) in
  let first := PStr (server_token_id e 1 stray_token) in
  run (move_token e "A" move_no_id)
    (run (remove_token e "A" [("id", first)])
       (run (add_token e "A" [("id", crafted)])
          (run (request_initial_state e "A")
             (run (move_token e "A" move_no_id) (world_of []))))).

(** A token record holding [v] under [tokens]. *)
Definition disk_with_tokens (v : pyval) : disk :=
  set_tokens_save_file disk_empty (FileJson (PDict [("tokens", v)])).

Definition change_to_png : dict :=
  [("map", PStr "data:image/png;base64,AAAA")].

(** Unfolding of the monad and of the state accessors. *)
Ltac unfold_monad :=
  unfold run, done_by, sio_emit, record, set_tokens, get_tokens, set_map,
    get_map, put_shared, get_shared, put_files, get_files, bind, ret in *.

(* ================================================================== *)
(** ** Basic facts *)

Lemma skipn_length_app {A : Type} (l d : list A) :
  List.skipn (List.length l) (l ++ d)%list = d.
Proof.
  induction l as [|x l IH]; simpl; [reflexivity | exact IH].
Qed.

Lemma done_by_log (c : M unit) (w : world) (d : list action) :
  log (run c w) = (log w ++ d)%list -> done_by c w = d.
Proof.
  intros H. unfold done_by. rewrite H. apply skipn_length_app.
Qed.

Lemma dict_lookup_set_same (d : dict) (k : string) (v : pyval) :
  dict_lookup (dict_set d k v) k = Some v.
Proof.
  induction d as [|[k' v'] d IH]; simpl.
  - rewrite String.eqb_refl. reflexivity.
  - destruct (String.eqb k' k) eqn:E; simpl; rewrite E; [reflexivity | exact IH].
Qed.

Lemma dict_lookup_set_other (d : dict) (k k' : string) (v : pyval) :
  k <> k' -> dict_lookup (dict_set d k v) k' = dict_lookup d k'.
Proof.
  intros Hne. induction d as [|[k0 v0] d IH]; simpl.
  - destruct (String.eqb k k') eqn:E; [|reflexivity].
    apply String.eqb_eq in E. contradiction.
  - destruct (String.eqb k0 k) eqn:E; simpl.
    + apply String.eqb_eq in E. subst k0.
      destruct (String.eqb k k') eqn:E'; [|reflexivity].
      apply String.eqb_eq in E'. contradiction.
    + destruct (String.eqb k0 k'); [reflexivity | exact IH].
Qed.

Lemma dict_get_set_other (d : dict) (k k' : string) (v : pyval) :
  k <> k' -> dict_get (dict_set d k v) k' = dict_get d k'.
Proof.
  intros Hne. unfold dict_get, dict_get_default.
  rewrite dict_lookup_set_other by exact Hne. reflexivity.
Qed.

(* ================================================================== *)
(** ** What each persistence function leaves of the world *)

Lemma save_tokens_spec (e : env) (w : world) :
  save_tokens e w =
    (tokens_write_ok e,
     {| shared := shared w;
        files := files_after_save e (files w) (tokens (shared w));
        log := (log w ++ [SaveTokens (tokens_write_ok e)])%list |}).
Proof.
  unfold save_tokens, files_after_save, tokens_write_ok. unfold_monad.
  destruct w as [s d l]. destruct (tokens_write e); reflexivity.
Qed.

Lemma extract_keeps_shared_and_log (e : env) (url : string) (w : world) :
  shared (snd (extract_and_save_map_image e url w)) = shared w
  /\ log (snd (extract_and_save_map_image e url w)) = log w.
Proof.
  unfold extract_and_save_map_image. unfold_monad.
  destruct (negb (truthy (PStr url)) || negb (startswith url "data:image/"));
    [split; reflexivity|].
  destruct (split_once "," url) as [[header encoded]|]; [|split; reflexivity].
  destruct (nth_error (split_on ";" header) 0) as [before_semi|];
    [|split; reflexivity].
  destruct (nth_error (split_on ":" before_semi) 1) as [mime_type|];
    [|split; reflexivity].
  destruct (nth_error (split_on "/" mime_type) 1) as [extension|];
    [|split; reflexivity].
  simpl.
  destruct (b64decode e encoded); [|split; reflexivity].
  destruct (image_write e _); split; reflexivity.
Qed.

Lemma save_map_write_keeps (e : env) (u : string) (w : world) :
  shared (snd (save_map_write e u w)) = shared w
  /\ log (snd (save_map_write e u w)) = log w.
Proof.
  unfold save_map_write. unfold_monad.
  destruct (map_write e); split; reflexivity.
Qed.

(** [save_map] touches files only, and logs its one call last. *)
Lemma save_map_spec (e : env) (v : pyval) (w : world) :
  shared (snd (save_map e v w)) = shared w
  /\ log (snd (save_map e v w))
     = (log w ++ [SaveMap (fst (save_map e v w))])%list.
Proof.
  unfold save_map.
  set (body := if negb (truthy v) then _ else _).
  assert (Hb : shared (snd (body w)) = shared w /\ log (snd (body w)) = log w).
  { subst body. destruct (negb (truthy v)); [split; reflexivity|].
    destruct v; try (split; reflexivity).
    destruct (startswith s "data:image/"); [|apply save_map_write_keeps].
    unfold bind.
    pose proof (extract_keeps_shared_and_log e s w) as [Hs Hl].
    destruct (extract_and_save_map_image e s w) as [[u|] w1]; simpl in *.
    - destruct (negb (String.eqb u "")); simpl.
      + destruct (save_map_write_keeps e u w1) as [Hs' Hl'].
        rewrite Hs', Hl'. split; assumption.
      + split; assumption.
    - split; assumption. }
  unfold_monad. destruct (body w) as [ok w1]. simpl in *.
  destruct Hb as [Hs Hl]. rewrite Hs, Hl. split; reflexivity.
Qed.

(* ================================================================== *)
(** ** What each handler logs and leaves *)

Lemma bind_apply {A B : Type} (c : M A) (k : A -> M B) (w : world) :
  bind c k w = k (fst (c w)) (snd (c w)).
Proof.
  unfold bind. destruct (c w); reflexivity.
Qed.

Section Handlers.

Variable e : env.
Variable sid : string.

(** *** The log of each handler *)

Lemma clear_all_tokens_log (w : world) :
  done_by (clear_all_tokens e sid) w =
    [SaveTokens (tokens_write_ok e);
     Emit "all_tokens_cleared" (PDict []) (SkipSid sid)].
Proof.
  apply done_by_log. unfold clear_all_tokens. unfold_monad.
  rewrite save_tokens_spec. simpl.
  rewrite <- List.app_assoc. reflexivity.
Qed.

Lemma move_token_log (data : dict) (w : world) :
  done_by (move_token e sid data) w =
    match found_token (tokens (shared w)) (dict_get data "id") with
    | Some _ =>
        [Emit "token_moved" (PDict data) (SkipSid sid);
         SaveTokens (tokens_write_ok e)]
    | None =>
        [Emit "token_added" (PDict (recovered_token data)) ToAll;
         Emit "token_moved" (PDict data) (SkipSid sid);
         SaveTokens (tokens_write_ok e)]
    end.
Proof.
  apply done_by_log. unfold move_token. unfold_monad.
  destruct (found_token (tokens (shared w)) (dict_get data "id")) as [[i t]|];
    rewrite save_tokens_spec; simpl; rewrite <- ?List.app_assoc; reflexivity.
Qed.

Lemma add_token_log (data : dict) (w : world) :
  done_by (add_token e sid data) w =
    if negb (truthy (PDict data)) || negb (truthy (dict_get data "id")) then []
    else
      match found_token (tokens (shared w)) (dict_get data "id") with
      | Some _ => [Emit "token_updated" (PDict data) (SkipSid sid)]
      | None =>
          [Emit "token_added" (PDict data) (SkipSid sid);
           SaveTokens (tokens_write_ok e)]
      end.
Proof.
  apply done_by_log. unfold add_token.
  destruct (negb (truthy (PDict data)) || negb (truthy (dict_get data "id"))).
  - unfold_monad. simpl. rewrite List.app_nil_r. reflexivity.
  - unfold_monad.
    destruct (found_token (tokens (shared w)) (dict_get data "id")) as [[i t]|].
    + reflexivity.
    + rewrite save_tokens_spec. simpl. rewrite <- ?List.app_assoc. reflexivity.
Qed.

Lemma remove_token_log (data : dict) (w : world) :
  done_by (remove_token e sid data) w =
    if Nat.ltb
         (List.length
            (List.filter
               (fun t => negb (py_eq (dict_get t "id") (dict_get data "id")))
               (tokens (shared w))))
         (List.length (tokens (shared w)))
    then [Emit "token_removed" (PDict data) (SkipSid sid);
          SaveTokens (tokens_write_ok e)]
    else [].
Proof.
  apply done_by_log. unfold remove_token. unfold_monad. simpl.
  destruct (Nat.ltb _ _).
  - rewrite save_tokens_spec. simpl. rewrite <- ?List.app_assoc. reflexivity.
  - simpl. rewrite List.app_nil_r. reflexivity.
Qed.

Lemma change_map_log (data : dict) (w : world) :
  done_by (change_map e sid data) w = []
  \/ exists ok payload,
       done_by (change_map e sid data) w =
         [SaveMap ok; Emit "map_changed" payload ToAll].
Proof.
  assert (Hdirect : forall v w0 p,
    log (snd ((set_map v ;; save_map e v ;; sio_emit "map_changed" p ToAll) w0))
    = (log w0 ++ [SaveMap (fst (save_map e v
         {| shared := {| tokens := tokens (shared w0); map_ref := v |};
            files := files w0; log := log w0 |}));
         Emit "map_changed" p ToAll])%list).
  { intros v w0 p. unfold_monad.
    match goal with |- context [save_map e v ?w1] =>
      pose proof (save_map_spec e v w1) as [_ Hl];
      destruct (save_map e v w1) as [ok w2] end.
    simpl in *. rewrite Hl. rewrite <- List.app_assoc. reflexivity. }
  unfold change_map. cbv zeta.
  destruct (truthy (dict_get data "map")).
  - destruct (dict_get data "map") as [| | |s| |];
      try (left; apply done_by_log; unfold_monad; simpl;
           rewrite List.app_nil_r; reflexivity).
    destruct (startswith s "data:image/").
    + unfold done_by, run. rewrite bind_apply.
      pose proof (extract_keeps_shared_and_log e s w) as [_ Hl0].
      destruct (extract_and_save_map_image e s w) as [[u|] w1]; simpl in Hl0;
        cbn [fst snd].
      * destruct (truthy (PStr u)).
        -- right. rewrite (Hdirect (PStr u) w1). simpl. rewrite Hl0.
           rewrite skipn_length_app. eauto.
        -- left. unfold_monad. simpl. rewrite Hl0.
           rewrite <- (List.app_nil_r (log w)) at 2. apply skipn_length_app.
      * left. unfold_monad. simpl. rewrite Hl0.
        rewrite <- (List.app_nil_r (log w)) at 2. apply skipn_length_app.
    + right. unfold done_by, run. rewrite Hdirect.
      rewrite skipn_length_app. eauto.
  - right. unfold done_by, run. rewrite Hdirect.
    rewrite skipn_length_app. eauto.
Qed.

(** *** The world each token handler leaves *)

Lemma move_token_run (data : dict) (w : world) :
  run (move_token e sid data) w =
    let ts := tokens (shared w) in
    let ts' :=
      match found_token ts (dict_get data "id") with
      | Some (i, token) => list_assign ts i (moved_token token data)
      | None => (ts ++ [recovered_token data])%list
      end in
    {| shared := {| tokens := ts'; map_ref := map_ref (shared w) |};
       files := files_after_save e (files w) ts';
       log := (log w ++ done_by (move_token e sid data) w)%list |}.
Proof.
  rewrite move_token_log. unfold move_token. unfold_monad. cbv zeta.
  destruct (found_token (tokens (shared w)) (dict_get data "id")) as [[i t]|];
    rewrite save_tokens_spec; simpl; rewrite <- ?List.app_assoc; reflexivity.
Qed.

Lemma add_token_run (data : dict) (w : world) :
  run (add_token e sid data) w =
    let ts := tokens (shared w) in
    if negb (truthy (PDict data)) || negb (truthy (dict_get data "id")) then w
    else
      match found_token ts (dict_get data "id") with
      | Some (i, existing_token) =>
          {| shared :=
               {| tokens := list_assign ts i (merge_fields existing_token data);
                  map_ref := map_ref (shared w) |};
             files := files w;
             log := (log w ++ [Emit "token_updated" (PDict data) (SkipSid sid)])%list |}
      | None =>
          {| shared :=
               {| tokens := (ts ++ [data])%list; map_ref := map_ref (shared w) |};
             files := files_after_save e (files w) (ts ++ [data])%list;
             log := (log w ++ [Emit "token_added" (PDict data) (SkipSid sid);
                               SaveTokens (tokens_write_ok e)])%list |}
      end.
Proof.
  unfold add_token. cbv zeta.
  destruct (negb (truthy (PDict data)) || negb (truthy (dict_get data "id")));
    [reflexivity|].
  unfold_monad.
  destruct (found_token (tokens (shared w)) (dict_get data "id")) as [[i t]|].
  - reflexivity.
  - rewrite save_tokens_spec. simpl. rewrite <- ?List.app_assoc. reflexivity.
Qed.

Lemma remove_token_run (data : dict) (w : world) :
  run (remove_token e sid data) w =
    let ts := tokens (shared w) in
    let kept :=
      List.filter
        (fun t => negb (py_eq (dict_get t "id") (dict_get data "id"))) ts in
    if Nat.ltb (List.length kept) (List.length ts) then
      {| shared := {| tokens := kept; map_ref := map_ref (shared w) |};
         files := files_after_save e (files w) kept;
         log := (log w ++ [Emit "token_removed" (PDict data) (SkipSid sid);
                           SaveTokens (tokens_write_ok e)])%list |}
    else
      {| shared := {| tokens := kept; map_ref := map_ref (shared w) |};
         files := files w;
         log := log w |}.
Proof.
  unfold remove_token. unfold_monad. cbv zeta. simpl.
  destruct (Nat.ltb _ _).
  - rewrite save_tokens_spec. simpl. rewrite <- ?List.app_assoc. reflexivity.
  - reflexivity.
Qed.

Lemma clear_all_tokens_run (w : world) :
  run (clear_all_tokens e sid) w =
    {| shared := {| tokens := []; map_ref := map_ref (shared w) |};
       files := files_after_save e (files w) [];
       log := (log w ++ [SaveTokens (tokens_write_ok e);
                         Emit "all_tokens_cleared" (PDict []) (SkipSid sid)])%list |}.
Proof.
  unfold clear_all_tokens. unfold_monad. rewrite save_tokens_spec. simpl.
  rewrite <- ?List.app_assoc. reflexivity.
Qed.

Lemma request_initial_state_run (w : world) :
  run (request_initial_state e sid) w =
    let ts := tokens (shared w) in
    let ts' := List.map (backfill_id e (List.length ts)) ts in
    let m := map_ref (shared w) in
    {| shared := {| tokens := ts'; map_ref := m |};
       files := files w;
       log :=
         (log w ++
          [Emit "initial_state"
             (PDict
                [("tokens", PList (List.map PDict ts'));
                 ("map",
                  if truthy m then
                    PStr (py_str (py_repr e) m ++ "?t=" ++ str_of_Z (now e))
                  else m)])
             (ToSid sid)])%list |}.
Proof.
  reflexivity.
Qed.

End Handlers.

(* ================================================================== *)
(** ** C1: order of the persistence call and the broadcast *)

(** C1, counterexample. Moving the stored token [t1] broadcasts
    [token_moved] first and calls [save_tokens] after it: the write does not
    come before the broadcast. *)
Lemma move_token_saves_after_broadcast :
  done_by (move_token env_ok "A" move_t1) (world_of [token_t1])
  = [Emit "token_moved" (PDict move_t1) (SkipSid "A"); SaveTokens true]
  /\ saves_before_emits
       (done_by (move_token env_ok "A" move_t1) (world_of [token_t1])) = false.
Proof.
  split; reflexivity.
Qed.

(** C1, amended. [clear_all_tokens] and [change_map] call the persistence
    function first and broadcast after it. [move_token] (both branches),
    the append branch of [add_token] and a [remove_token] that removed
    something broadcast first and call [save_tokens] last. *)
Theorem persistence_and_broadcast_order
  (e : env) (sid : string) (data : dict) (w : world) :
  done_by (clear_all_tokens e sid) w
  = [SaveTokens (tokens_write_ok e);
     Emit "all_tokens_cleared" (PDict []) (SkipSid sid)]
  /\ (done_by (change_map e sid data) w = []
      \/ exists ok payload,
           done_by (change_map e sid data) w
           = [SaveMap ok; Emit "map_changed" payload ToAll])
  /\ (done_by (move_token e sid data) w
      = [Emit "token_moved" (PDict data) (SkipSid sid);
         SaveTokens (tokens_write_ok e)]
      \/ done_by (move_token e sid data) w
         = [Emit "token_added" (PDict (recovered_token data)) ToAll;
            Emit "token_moved" (PDict data) (SkipSid sid);
            SaveTokens (tokens_write_ok e)])
  /\ (truthy (dict_get data "id") = true ->
      found_token (tokens (shared w)) (dict_get data "id") = None ->
      done_by (add_token e sid data) w
      = [Emit "token_added" (PDict data) (SkipSid sid);
         SaveTokens (tokens_write_ok e)])
  /\ (done_by (remove_token e sid data) w = []
      \/ done_by (remove_token e sid data) w
         = [Emit "token_removed" (PDict data) (SkipSid sid);
            SaveTokens (tokens_write_ok e)]).
Proof.
  split; [apply clear_all_tokens_log|].
  split; [apply change_map_log|].
  split.
  { rewrite move_token_log.
    destruct (found_token _ _); [left | right]; reflexivity. }
  split.
  { intros Hid Hnone. rewrite add_token_log, Hid, Hnone.
    destruct data as [|kv data']; [discriminate Hid | reflexivity]. }
  rewrite remove_token_log.
  destruct (Nat.ltb _ _); [right | left]; reflexivity.
Qed.

(** The amended C1 at work: a new token [t1] on an empty server. *)
Lemma persistence_and_broadcast_order_witness :
  done_by (add_token env_ok "A" token_t1) (world_of [])
  = [Emit "token_added" (PDict token_t1) (SkipSid "A"); SaveTokens true].
Proof.
  apply (persistence_and_broadcast_order env_ok "A" token_t1 (world_of []));
    reflexivity.
Defined.

(* ================================================================== *)
(** ** The token record after a handler *)

Lemma filter_all_of_length {A : Type} (f : A -> bool) (l : list A) :
  List.length (List.filter f l) = List.length l -> List.filter f l = l.
Proof.
  induction l as [|x l IH]; simpl; [reflexivity|].
  destruct (f x); simpl; intros H.
  - f_equal. apply IH. lia.
  - pose proof (List.filter_length_le f l). lia.
Qed.

Lemma files_after_save_persisted (e : env) (d : disk) (ts : list dict) :
  tokens_write_ok e = true -> persisted_tokens (files_after_save e d ts) ts.
Proof.
  unfold files_after_save, persisted_tokens, tokens_write_ok.
  destruct (tokens_write e); simpl; intros Hok;
    [reflexivity | discriminate | discriminate].
Qed.

(** X2. Where the handlers call [save_tokens], and the write succeeds,
    the record on disk is the list in memory. *)
Lemma saving_handlers_persist (e : env) (sid : string) (data : dict) (w : world) :
  tokens_write_ok e = true ->
  persisted_tokens (files (run (move_token e sid data) w))
    (tokens (shared (run (move_token e sid data) w)))
  /\ persisted_tokens (files (run (clear_all_tokens e sid) w))
       (tokens (shared (run (clear_all_tokens e sid) w)))
  /\ (truthy (dict_get data "id") = true ->
      found_token (tokens (shared w)) (dict_get data "id") = None ->
      persisted_tokens (files (run (add_token e sid data) w))
        (tokens (shared (run (add_token e sid data) w))))
  /\ (persisted_tokens (files w) (tokens (shared w)) ->
      persisted_tokens (files (run (remove_token e sid data) w))
        (tokens (shared (run (remove_token e sid data) w)))).
Proof.
  intros Hok. repeat split.
  - rewrite move_token_run. cbv zeta. simpl.
    apply files_after_save_persisted, Hok.
  - rewrite clear_all_tokens_run. simpl.
    apply files_after_save_persisted, Hok.
  - intros Hid Hnone. rewrite add_token_run. cbv zeta. rewrite Hid, Hnone.
    destruct data as [|kv data']; [discriminate Hid|]. simpl.
    apply files_after_save_persisted, Hok.
  - intros Hsync. rewrite remove_token_run. cbv zeta.
    destruct (Nat.ltb _ _) eqn:Hlt; simpl.
    + apply files_after_save_persisted, Hok.
    + apply Nat.ltb_ge in Hlt.
      assert (Hlen : List.length
                (List.filter
                   (fun t => negb (py_eq (dict_get t "id") (dict_get data "id")))
                   (tokens (shared w))) = List.length (tokens (shared w))).
      { pose proof (List.filter_length_le
          (fun t => negb (py_eq (dict_get t "id") (dict_get data "id")))
          (tokens (shared w))). lia. }
      rewrite (filter_all_of_length _ _ Hlen). exact Hsync.
Qed.

(* ================================================================== *)
(** ** C2: the token record on disk against the list in memory *)

(** After [clear_all_tokens] the token list is empty, whatever it was. *)
Lemma clear_all_tokens_empties (e : env) (sid : string) (w : world) :
  tokens (shared (run (clear_all_tokens e sid) w)) = [].
Proof.
  rewrite clear_all_tokens_run. reflexivity.
Qed.

(** The merge branch of [add_token] writes no file at all. *)
Lemma add_token_merge_leaves_files
  (e : env) (sid : string) (data : dict) (w : world) (i : nat) (t : dict) :
  truthy (dict_get data "id") = true ->
  found_token (tokens (shared w)) (dict_get data "id") = Some (i, t) ->
  files (run (add_token e sid data) w) = files w
  /\ tokens (shared (run (add_token e sid data) w))
     = list_assign (tokens (shared w)) i (merge_fields t data).
Proof.
  intros Hid Hfound. rewrite add_token_run. cbv zeta. rewrite Hid, Hfound.
  destruct data as [|kv data']; [discriminate Hid|]. split; reflexivity.
Qed.

(** The back-fill of [request_initial_state] writes identifiers into the
    tokens in memory and saves nothing either. *)
Lemma backfill_not_persisted :
  tokens (shared (run (request_initial_state env_ok "A") (world_of [goblin])))
  = [dict_set goblin "id" (PStr "server-token-1-42")]
  /\ tokens_save_file
       (files (run (request_initial_state env_ok "A") (world_of [goblin])))
     = FileJson (tokens_document [goblin]).
Proof.
  split; reflexivity.
Qed.

(** C2, the failing input. The server holds token [t1] at (0, 0) and the
    token record is in step with it; every file write succeeds. A client
    sends [add_token] for [t1] with [x = 5]. The merge branch moves the token
    in memory and calls no [save_tokens]: the record on disk still holds
    [x = 0], and a restart would bring the old position back. *)
Theorem add_token_merge_not_persisted :
  persisted_tokens (files (world_of [token_t1]))
    (tokens (shared (world_of [token_t1])))
  /\ tokens (shared (run (add_token env_ok "A" update_t1) (world_of [token_t1])))
     = [[("id", PStr "t1"); ("x", PInt 5); ("y", PInt 0)]]
  /\ tokens_save_file
       (files (run (add_token env_ok "A" update_t1) (world_of [token_t1])))
     = FileJson (tokens_document [token_t1])
  /\ as_tokens
       (load_saved_tokens
          (files (run (add_token env_ok "A" update_t1) (world_of [token_t1]))))
     = Some [[("id", PStr "t1"); ("x", PInt 0); ("y", PInt 0)]].
Proof.
  repeat split.
Qed.

(* ================================================================== *)
(** ** C3: uniqueness of token identifiers *)

(** C3, the failing input. The token record held two goblins with the same
    fields and no [id]; the server loaded them at start. No two tokens share
    an identifier. A client sends [request_initial_state]: both tokens get
    the identifier made of the length of the list and the hash of their
    text, which is the same text. Whatever the hash function, the two
    tokens now share an identifier. *)
Theorem backfill_gives_equal_ids (e : env) (sid : string) :
  startup (files (world_of [goblin; goblin])) = Some (world_of [goblin; goblin])
  /\ ids_unique (tokens (shared (world_of [goblin; goblin]))) = true
  /\ tokens (shared (run (request_initial_state e sid)
                       (world_of [goblin; goblin])))
     = [dict_set goblin "id" (PStr (server_token_id e 2 goblin));
        dict_set goblin "id" (PStr (server_token_id e 2 goblin))]
  /\ ids_unique
       (tokens (shared (run (request_initial_state e sid)
                          (world_of [goblin; goblin])))) = false.
Proof.
  split; [reflexivity|]. split; [reflexivity|]. split; [reflexivity|].
  rewrite request_initial_state_run. cbv zeta. unfold ids_unique.
  cbn. rewrite String.eqb_refl. reflexivity.
Qed.

(** A second failing input for the back-fill, made of client events only.
    Before the last [request_initial_state] the server holds a token with a
    client-chosen [id] and a stray token with a null [id]; after it both
    have the same identifier. *)
Lemma backfill_collides_with_client_id (e : env) :
  List.map token_id (tokens (shared (collision_run e)))
  = [PStr (server_token_id e 2 stray_token); PNone]
  /\ List.map token_id
       (tokens (shared (run (request_initial_state e "A") (collision_run e))))
     = [PStr (server_token_id e 2 stray_token);
        PStr (server_token_id e 2 stray_token)]
  /\ ids_unique
       (tokens (shared (run (request_initial_state e "A") (collision_run e))))
     = false.
Proof.
  assert (Hrun : tokens (shared (collision_run e))
                 = [[("id", PStr (server_token_id e 2 stray_token))];
                    stray_token]).
  { unfold collision_run. cbv zeta.
    rewrite !move_token_run, remove_token_run, add_token_run,
      request_initial_state_run.
    cbn. rewrite !String.eqb_refl. cbn. reflexivity. }
  split; [rewrite Hrun; reflexivity|].
  rewrite request_initial_state_run. cbv zeta. cbn [tokens shared].
  rewrite Hrun. cbn. split; [reflexivity|].
  unfold ids_unique. cbn. rewrite String.eqb_refl. reflexivity.
Qed.

(** *** The handlers that keep identifiers unique *)

Lemma py_eq_None_l (b : pyval) : py_eq PNone b = true -> b = PNone.
Proof.
  destruct b; simpl; intros H; try discriminate; reflexivity.
Qed.

(** Equal scalars behave alike in every comparison and every test. *)
Lemma py_eq_scalar_congr (a b : pyval) :
  is_scalar b = true -> py_eq a b = true ->
  truthy a = truthy b
  /\ (forall c, py_eq a c = py_eq b c)
  /\ (forall c, py_eq c a = py_eq c b).
Proof.
  intros Hs Hab.
  destruct a as [|x|x|x|x|x], b as [|y|y|y|y|y]; simpl in Hs, Hab;
    try discriminate.
  - repeat split.
  - apply Bool.eqb_prop in Hab. subst y. repeat split.
  - apply Z.eqb_eq in Hab. subst y. repeat split;
      try intros c; try destruct c as [|z|z|z|z|z]; simpl;
      try reflexivity; destruct x; try destruct z;
      first [reflexivity | apply Z.eqb_sym].
  - apply Z.eqb_eq in Hab. subst x. repeat split;
      try intros c; try destruct c as [|z|z|z|z|z]; simpl;
      try reflexivity; destruct y; try destruct z;
      first [reflexivity | apply Z.eqb_sym].
  - apply Z.eqb_eq in Hab. subst y. repeat split.
  - apply String.eqb_eq in Hab. subst y. repeat split.
Qed.

Lemma clash_congr (a b : pyval) :
  is_scalar b = true -> py_eq a b = true ->
  (forall c, clash a c = clash b c) /\ (forall c, clash c a = clash c b).
Proof.
  intros Hs Hab.
  destruct (py_eq_scalar_congr a b Hs Hab) as [Ht [Hl Hr]].
  split; intros c; unfold clash; rewrite Ht, ?Hl, ?Hr; reflexivity.
Qed.

Lemma find_token_from_some (k : nat) (ts : list dict) (id : pyval)
  (i : nat) (t : dict) :
  find_token_from k ts id = Some (i, t) ->
  k <= i /\ nth_error ts (i - k) = Some t /\ py_eq (token_id t) id = true.
Proof.
  revert k. induction ts as [|t0 ts IH]; simpl; intros k H; [discriminate|].
  destruct (py_eq (dict_get t0 "id") id) eqn:E.
  - injection H as <- <-. rewrite Nat.sub_diag. auto.
  - apply IH in H. destruct H as [Hle [Hn Heq]].
    split; [lia|]. split; [|exact Heq].
    replace (i - k) with (S (i - S k)) by lia. exact Hn.
Qed.

Lemma find_token_from_none (k : nat) (ts : list dict) (id : pyval) :
  find_token_from k ts id = None ->
  forall t, In t ts -> py_eq (token_id t) id = false.
Proof.
  revert k. induction ts as [|t0 ts IH]; simpl; intros k H t Hin;
    [contradiction|].
  destruct (py_eq (dict_get t0 "id") id) eqn:E; [discriminate|].
  destruct Hin as [<- | Hin]; [exact E | exact (IH _ H t Hin)].
Qed.

Lemma found_token_some (ts : list dict) (id : pyval) (i : nat) (t : dict) :
  found_token ts id = Some (i, t) ->
  nth_error ts i = Some t /\ py_eq (token_id t) id = true.
Proof.
  unfold found_token, find_token. intros H.
  destruct (find_token_from 0 ts id) as [[j u]|] eqn:E; [|discriminate].
  destruct (truthy (PDict u)); [|discriminate].
  injection H as <- <-.
  apply find_token_from_some in E. rewrite Nat.sub_0_r in E. tauto.
Qed.

(** When no token is found, no stored identifier clashes with the one
    that was looked for. *)
Lemma found_token_none (ts : list dict) (id : pyval) :
  found_token ts id = None ->
  forall t, In t ts -> clash (token_id t) id = false.
Proof.
  unfold found_token, find_token. intros H t Hin.
  destruct (find_token_from 0 ts id) as [[j u]|] eqn:E.
  - destruct u as [|kv u]; [|discriminate].
    apply find_token_from_some in E. destruct E as [_ [_ E]].
    apply py_eq_None_l in E. subst id.
    unfold clash. simpl. rewrite Bool.andb_false_r. reflexivity.
  - unfold clash. rewrite (find_token_from_none _ _ _ E t Hin).
    apply Bool.andb_false_r.
Qed.

Lemma existsb_clash_snoc (a : pyval) (ids : list pyval) (x : pyval) :
  List.existsb (clash a) (ids ++ [x])%list
  = List.existsb (clash a) ids || clash a x.
Proof.
  rewrite List.existsb_app. simpl. rewrite Bool.orb_false_r. reflexivity.
Qed.

Lemma distinct_ids_snoc (ids : list pyval) (x : pyval) :
  distinct_ids ids = true ->
  (forall a, In a ids -> clash a x = false) ->
  distinct_ids (ids ++ [x])%list = true.
Proof.
  induction ids as [|a ids IH]; simpl; intros Hd Hx; [reflexivity|].
  apply Bool.andb_true_iff in Hd. destruct Hd as [Ha Hd].
  rewrite existsb_clash_snoc, (Hx a (or_introl eq_refl)), Bool.orb_false_r, Ha.
  simpl. apply IH; [exact Hd|]. intros b Hb. apply Hx. right. exact Hb.
Qed.

Lemma existsb_filter_false {A : Type} (p f : A -> bool) (l : list A) :
  List.existsb p l = false -> List.existsb p (List.filter f l) = false.
Proof.
  induction l as [|x l IH]; simpl; [reflexivity|].
  intros H. apply Bool.orb_false_iff in H. destruct H as [Hx Hl].
  destruct (f x); simpl; [rewrite Hx|]; auto.
Qed.

Lemma ids_unique_filter (f : dict -> bool) (ts : list dict) :
  ids_unique ts = true -> ids_unique (List.filter f ts) = true.
Proof.
  unfold ids_unique. induction ts as [|t ts IH]; simpl; [reflexivity|].
  intros H. apply Bool.andb_true_iff in H. destruct H as [Ht Hd].
  destruct (f t); simpl; [|auto].
  rewrite (IH Hd), Bool.andb_true_r.
  apply Bool.negb_true_iff in Ht. apply Bool.negb_true_iff.
  clear IH Hd. induction ts as [|u ts IHu]; simpl in *; [reflexivity|].
  apply Bool.orb_false_iff in Ht. destruct Ht as [Hu Hts].
  destruct (f u); simpl; [rewrite Hu|]; auto.
Qed.

Lemma existsb_pointwise {A : Type} (p q : A -> bool) (l : list A) :
  (forall x, p x = q x) -> List.existsb p l = List.existsb q l.
Proof.
  intros H. induction l as [|x l IH]; simpl; [reflexivity|].
  rewrite H, IH. reflexivity.
Qed.

(** Writing into place [i] a token whose identifier is equal to the one
    that stood there. *)
Lemma ids_unique_assign (ts : list dict) (i : nat) (t t' : dict) :
  nth_error ts i = Some t ->
  is_scalar (token_id t') = true ->
  py_eq (token_id t) (token_id t') = true ->
  ids_unique (list_assign ts i t') = ids_unique ts.
Proof.
  intros Hn Hs He. destruct (clash_congr _ _ Hs He) as [Hl Hr].
  unfold ids_unique. revert i Hn.
  induction ts as [|u ts IH]; intros i Hn; [destruct i; discriminate|].
  destruct i as [|i]; simpl in *.
  - injection Hn as ->. f_equal. f_equal.
    apply existsb_pointwise. intros c. symmetry. apply Hl.
  - rewrite (IH i Hn). f_equal. f_equal.
    clear IH. revert i Hn.
    induction ts as [|v ts IHv]; intros i Hn; [destruct i; discriminate|].
    destruct i as [|i]; simpl in *.
    + injection Hn as ->. rewrite Hr. reflexivity.
    + rewrite (IHv i Hn). reflexivity.
Qed.

(** *** Field-by-field merge *)

Lemma dict_lookup_none_keys (d : dict) (k : string) :
  ~ In k (dict_keys d) -> dict_lookup d k = None.
Proof.
  induction d as [|[k0 v0] d IH]; simpl; intros H; [reflexivity|].
  destruct (String.eqb k0 k) eqn:E.
  - apply String.eqb_eq in E. subst k0. exfalso. apply H. left. reflexivity.
  - apply IH. intros Hin. apply H. right. exact Hin.
Qed.

(** A field the payload does not name keeps the value it had. *)
Lemma merge_fields_lookup_other (data t : dict) (k : string) :
  dict_lookup data k = None ->
  dict_lookup (merge_fields t data) k = dict_lookup t k.
Proof.
  unfold merge_fields. revert t.
  induction data as [|[k0 v0] data IH]; simpl; intros t H; [reflexivity|].
  destruct (String.eqb k0 k) eqn:E; [discriminate|].
  rewrite (IH _ H). apply dict_lookup_set_other.
  intros ->. rewrite String.eqb_refl in E. discriminate.
Qed.

(** A field the payload names has the payload's value afterwards. *)
Lemma merge_fields_lookup (data t : dict) (k : string) (v : pyval) :
  dict_wf data ->
  dict_lookup data k = Some v ->
  dict_lookup (merge_fields t data) k = Some v.
Proof.
  unfold dict_wf. revert t.
  induction data as [|[k0 v0] data IH]; simpl; intros t Hwf H; [discriminate|].
  inversion Hwf as [|? ? Hnotin Hwf']; subst.
  destruct (String.eqb k0 k) eqn:E.
  - apply String.eqb_eq in E. subst k0. injection H as ->.
    change (dict_lookup (merge_fields (dict_set t k v) data) k = Some v).
    rewrite merge_fields_lookup_other by (apply dict_lookup_none_keys, Hnotin).
    apply dict_lookup_set_same.
  - apply IH; assumption.
Qed.

Lemma map_token_id_assign (ts : list dict) (i : nat) (t t' : dict) :
  nth_error ts i = Some t ->
  token_id t' = token_id t ->
  List.map token_id (list_assign ts i t') = List.map token_id ts.
Proof.
  intros Hn He. revert i Hn.
  induction ts as [|u ts IH]; intros i Hn; [reflexivity|].
  destruct i as [|i]; simpl in *.
  - injection Hn as ->. rewrite He. reflexivity.
  - rewrite (IH i Hn). reflexivity.
Qed.

Lemma ids_unique_snoc (ts : list dict) (x : dict) :
  ids_unique ts = true ->
  (forall t, In t ts -> clash (token_id t) (token_id x) = false) ->
  ids_unique (ts ++ [x])%list = true.
Proof.
  intros Hu Hx. unfold ids_unique. rewrite List.map_app. simpl.
  apply distinct_ids_snoc; [exact Hu|].
  intros a Ha. apply List.in_map_iff in Ha. destruct Ha as [t [<- Hin]].
  apply Hx, Hin.
Qed.

(** X1. [move_token], [remove_token], [clear_all_tokens] and [add_token]
    keep the identifiers unique; for the merge branch of [add_token] the
    payload is a dictionary whose [id] is not a list or a dictionary. *)
Lemma token_handlers_keep_ids_unique
  (e : env) (sid : string) (data : dict) (w : world) :
  ids_unique (tokens (shared w)) = true ->
  ids_unique (tokens (shared (run (move_token e sid data) w))) = true
  /\ ids_unique (tokens (shared (run (remove_token e sid data) w))) = true
  /\ ids_unique (tokens (shared (run (clear_all_tokens e sid) w))) = true
  /\ (dict_wf data -> is_scalar (dict_get data "id") = true ->
      ids_unique (tokens (shared (run (add_token e sid data) w))) = true).
Proof.
  intros Hu. split; [|split; [|split]].
  - rewrite move_token_run. cbv zeta. simpl.
    destruct (found_token (tokens (shared w)) (dict_get data "id"))
      as [[i t]|] eqn:Hf.
    + apply found_token_some in Hf. destruct Hf as [Hn _].
      unfold ids_unique.
      rewrite (map_token_id_assign _ _ t); [exact Hu | exact Hn |].
      unfold moved_token, token_id.
      rewrite !dict_get_set_other by discriminate. reflexivity.
    + apply ids_unique_snoc; [exact Hu|].
      intros t Hin. apply (found_token_none _ _ Hf t Hin).
  - rewrite remove_token_run. cbv zeta.
    destruct (Nat.ltb _ _); simpl; apply ids_unique_filter, Hu.
  - rewrite clear_all_tokens_run. reflexivity.
  - intros Hwf Hs. rewrite add_token_run. cbv zeta.
    destruct (negb (truthy (PDict data)) || negb (truthy (dict_get data "id")))
      eqn:Hrej; [exact Hu|].
    destruct (found_token (tokens (shared w)) (dict_get data "id"))
      as [[i t]|] eqn:Hf; simpl.
    + apply found_token_some in Hf. destruct Hf as [Hn He].
      assert (Hid : token_id (merge_fields t data) = dict_get data "id").
      { unfold token_id, dict_get, dict_get_default.
        destruct (dict_lookup data "id") as [v|] eqn:Hl.
        - rewrite (merge_fields_lookup data t "id" v Hwf Hl). reflexivity.
        - apply Bool.orb_false_iff in Hrej. destruct Hrej as [_ Hrej].
          unfold dict_get, dict_get_default in Hrej. rewrite Hl in Hrej.
          discriminate. }
      rewrite (ids_unique_assign _ _ t); [exact Hu | exact Hn | |];
        rewrite Hid; assumption.
    + apply ids_unique_snoc; [exact Hu|].
      intros t Hin. apply (found_token_none _ _ Hf t Hin).
Qed.

(* ================================================================== *)
(** ** C4: payloads without the required field *)

(** C4, counterexample. A [move_token] payload without [id] is not
    rejected: on an empty server it adds a token whose [id] is [None] and
    broadcasts twice. (A [change_map] payload without [map] is not rejected
    either: the map is set to [None], nothing is written, and the text
    [None?t=...] is broadcast.) *)
Lemma move_token_without_id_mutates :
  dict_lookup move_no_id "id" = None
  /\ tokens (shared (run (move_token env_ok "A" move_no_id) (world_of [])))
     = [[("id", PNone); ("x", PInt 3); ("y", PInt 4); ("size", PInt 50);
         ("color", PStr "blue"); ("name", PStr "Token");
         ("portraitUrl", PNone)]]
  /\ done_by (move_token env_ok "A" move_no_id) (world_of [])
     = [Emit "token_added" (PDict (recovered_token move_no_id)) ToAll;
        Emit "token_moved" (PDict move_no_id) (SkipSid "A");
        SaveTokens true]
  /\ map_ref (shared (run (change_map env_ok "A" []) world_with_map)) = PNone
  /\ done_by (change_map env_ok "A" []) world_with_map
     = [SaveMap false;
        Emit "map_changed" (PDict [("map", PStr "None?t=1700000000")]) ToAll].
Proof.
  repeat split.
Qed.

(** [add_token] returns at once when the payload has no [id], or one that
    Python takes for false (null, empty string, zero). *)
Lemma add_token_rejects (e : env) (sid : string) (data : dict) (w : world) :
  truthy (dict_get data "id") = false -> run (add_token e sid data) w = w.
Proof.
  intros H. rewrite add_token_run. cbv zeta. rewrite H.
  rewrite Bool.orb_true_r. reflexivity.
Qed.

Lemma filter_keeps_all {A : Type} (f : A -> bool) (l : list A) :
  (forall x, In x l -> f x = true) -> List.filter f l = l.
Proof.
  induction l as [|x l IH]; simpl; intros H; [reflexivity|].
  rewrite (H x (or_introl eq_refl)). f_equal. apply IH.
  intros y Hy. apply H. right. exact Hy.
Qed.

Lemma filter_drops_one {A : Type} (f : A -> bool) (l : list A) (x : A) :
  In x l -> f x = false ->
  List.length (List.filter f l) < List.length l.
Proof.
  induction l as [|y l IH]; simpl; intros Hin Hx; [contradiction|].
  pose proof (List.filter_length_le f l) as Hle.
  destruct Hin as [-> | Hin].
  - rewrite Hx. lia.
  - specialize (IH Hin Hx). destruct (f y); simpl; lia.
Qed.

(** C4, amended. [add_token] leaves the world as it was (no mutation, no
    write, no broadcast) when the payload has no [id], or one that Python
    takes for false. The other two handlers take a payload without [id]
    for one whose [id] is null. [remove_token] leaves the world as it was
    when no stored token has a null or absent [id]; when some have, it
    removes exactly these, broadcasts [token_removed] to all but the sender
    and saves. [move_token] sets [x] and [y] of the first stored token with
    a null or absent [id], when this token is not the empty dictionary,
    broadcasts [token_moved] to all but the sender and saves; when there is
    no such token, or the first one is the empty dictionary, it appends a
    token with a null [id] made of the payload, broadcasts [token_added] to
    all, then [token_moved] to all but the sender, and saves. *)
Theorem missing_id_handling
  (e : env) (sid : string) (data : dict) (w : world) :
  (truthy (dict_get data "id") = false -> run (add_token e sid data) w = w)
  /\ (dict_lookup data "id" = None ->
      let ts := tokens (shared w) in
      let kept := List.filter (fun t => negb (py_eq (token_id t) PNone)) ts in
      ((forall t, In t ts -> py_eq (token_id t) PNone = false) ->
       run (remove_token e sid data) w = w)
      /\ ((exists t, In t ts /\ py_eq (token_id t) PNone = true) ->
          run (remove_token e sid data) w
          = {| shared := {| tokens := kept; map_ref := map_ref (shared w) |};
               files := files_after_save e (files w) kept;
               log := (log w
                       ++ [Emit "token_removed" (PDict data) (SkipSid sid);
                           SaveTokens (tokens_write_ok e)])%list |}
          /\ (forall t, In t kept
                        <-> In t ts /\ py_eq (token_id t) PNone = false))
      /\ (forall i t,
            find_token ts PNone = Some (i, t) -> t <> [] ->
            run (move_token e sid data) w
            = {| shared :=
                   {| tokens := list_assign ts i (moved_token t data);
                      map_ref := map_ref (shared w) |};
                 files :=
                   files_after_save e (files w)
                     (list_assign ts i (moved_token t data));
                 log := (log w
                         ++ [Emit "token_moved" (PDict data) (SkipSid sid);
                             SaveTokens (tokens_write_ok e)])%list |})
      /\ (find_token ts PNone = None
          \/ (exists i, find_token ts PNone = Some (i, [])) ->
          run (move_token e sid data) w
          = {| shared :=
                 {| tokens := (ts ++ [recovered_token data])%list;
                    map_ref := map_ref (shared w) |};
               files :=
                 files_after_save e (files w)
                   (ts ++ [recovered_token data])%list;
               log := (log w
                       ++ [Emit "token_added" (PDict (recovered_token data))
                             ToAll;
                           Emit "token_moved" (PDict data) (SkipSid sid);
                           SaveTokens (tokens_write_ok e)])%list |}
          /\ token_id (recovered_token data) = PNone)).
Proof.
  split; [apply add_token_rejects|].
  intros Hno. cbv zeta.
  assert (Hid : dict_get data "id" = PNone).
  { unfold dict_get, dict_get_default. rewrite Hno. reflexivity. }
  split; [|split; [|split]].
  - intros Hall. rewrite remove_token_run. cbv zeta. rewrite Hid.
    rewrite filter_keeps_all.
    + rewrite Nat.ltb_irrefl. destruct w as [[ts m] d l]. reflexivity.
    + intros t Hin. pose proof (Hall t Hin) as Ht. unfold token_id in Ht.
      rewrite Ht. reflexivity.
  - intros [t [Hin Ht]]. split.
    + rewrite remove_token_run. cbv zeta. rewrite Hid.
      assert (Hlt :
        List.length
          (List.filter (fun t => negb (py_eq (dict_get t "id") PNone))
             (tokens (shared w)))
        < List.length (tokens (shared w))).
      { apply (filter_drops_one _ _ t Hin). unfold token_id in Ht.
        rewrite Ht. reflexivity. }
      apply Nat.ltb_lt in Hlt. rewrite Hlt. reflexivity.
    + intros u. rewrite List.filter_In, Bool.negb_true_iff. reflexivity.
  - intros i t Hfind Hne.
    assert (Hf : found_token (tokens (shared w)) PNone = Some (i, t)).
    { unfold found_token. rewrite Hfind.
      destruct t as [|kv t]; [contradiction | reflexivity]. }
    rewrite move_token_run, move_token_log. cbv zeta. rewrite Hid, Hf.
    reflexivity.
  - intros Hfind.
    assert (Hf : found_token (tokens (shared w)) PNone = None).
    { unfold found_token.
      destruct Hfind as [-> | [i ->]]; reflexivity. }
    split.
    + rewrite move_token_run, move_token_log. cbv zeta. rewrite Hid, Hf.
      reflexivity.
    + unfold token_id, recovered_token. cbn. exact Hid.
Qed.

(** The amended C4 at work on a server holding [t1] and a goblin without
    [id]: [add_token] does nothing, [remove_token] removes the goblin,
    [move_token] moves it. *)
Lemma missing_id_handling_witness :
  run (add_token env_ok "A" move_no_id) (world_of [token_t1; goblin])
  = world_of [token_t1; goblin]
  /\ tokens (shared (run (remove_token env_ok "A" move_no_id)
                       (world_of [token_t1; goblin])))
     = [token_t1]
  /\ tokens (shared (run (move_token env_ok "A" move_no_id)
                       (world_of [token_t1; goblin])))
     = [token_t1; [("name", PStr "Goblin"); ("x", PInt 3); ("y", PInt 4)]].
Proof.
  destruct (missing_id_handling env_ok "A" move_no_id
              (world_of [token_t1; goblin])) as [Hadd Hrest].
  specialize (Hrest eq_refl). cbv zeta in Hrest.
  destruct Hrest as [_ [Hrem [Hmove _]]].
  split; [apply Hadd; reflexivity|]. split.
  - destruct Hrem as [Hrun _].
    + exists goblin. split; [right; left; reflexivity | reflexivity].
    + rewrite Hrun. reflexivity.
  - rewrite (Hmove 1 goblin eq_refl); [reflexivity | discriminate].
Defined.

(* ================================================================== *)
(** ** C5: payload fields in the stored token *)

(** C5, counterexample. [move_token] for the unknown token [t9] with the
    extra field [hp]: the token that is stored has the seven known fields
    and no [hp]. *)
Lemma auto_recovery_drops_unknown_field :
  dict_lookup move_t9 "hp" = Some (PInt 10)
  /\ tokens (shared (run (move_token env_ok "A" move_t9) (world_of [])))
     = [[("id", PStr "t9"); ("x", PInt 1); ("y", PInt 2); ("size", PInt 50);
         ("color", PStr "blue"); ("name", PStr "Token");
         ("portraitUrl", PNone)]]
  /\ dict_lookup (recovered_token move_t9) "hp" = None.
Proof.
  repeat split.
Qed.

Lemma nth_error_list_assign {A : Type} (l : list A) (i : nat) (x y : A) :
  nth_error l i = Some y -> nth_error (list_assign l i x) i = Some x.
Proof.
  revert i. induction l as [|z l IH]; intros i H; [destruct i; discriminate|].
  destruct i as [|i]; simpl in *; [reflexivity | apply IH, H].
Qed.

Lemma recovered_token_keeps_known (data : dict) (k : string) (v : pyval) :
  In k known_fields ->
  dict_lookup data k = Some v ->
  dict_lookup (recovered_token data) k = Some v.
Proof.
  unfold known_fields. simpl. intros Hin Hl.
  repeat (destruct Hin as [<- | Hin];
          [simpl; unfold dict_get, dict_get_default; rewrite Hl; reflexivity|]).
  contradiction.
Qed.

Lemma recovered_token_defaults (data : dict) (k : string) :
  In k known_fields ->
  dict_lookup data k = None ->
  dict_lookup (recovered_token data) k = Some (default_field k).
Proof.
  unfold known_fields. simpl. intros Hin Hl.
  repeat (destruct Hin as [<- | Hin];
          [simpl; unfold dict_get, dict_get_default; rewrite Hl; reflexivity|]).
  contradiction.
Qed.

(** C5, amended. The append branch of [add_token] stores the payload
    itself. The merge branch leaves every field of the payload in the
    stored token with the payload's value, and the other fields of the
    token as they were. The auto-recovery of [move_token] stores a token of
    exactly the seven known fields: a payload field among them is kept, a
    missing one gets its default, any other payload field is not copied. *)
Theorem payload_fields_in_stored_token
  (e : env) (sid : string) (data : dict) (w : world) :
  dict_wf data ->
  (truthy (dict_get data "id") = true ->
   found_token (tokens (shared w)) (dict_get data "id") = None ->
   tokens (shared (run (add_token e sid data) w))
   = (tokens (shared w) ++ [data])%list)
  /\ (forall i t,
        truthy (dict_get data "id") = true ->
        found_token (tokens (shared w)) (dict_get data "id") = Some (i, t) ->
        exists stored,
          nth_error (tokens (shared (run (add_token e sid data) w))) i
          = Some stored
          /\ (forall k v, dict_lookup data k = Some v ->
                          dict_lookup stored k = Some v)
          /\ (forall k, dict_lookup data k = None ->
                        dict_lookup stored k = dict_lookup t k))
  /\ (found_token (tokens (shared w)) (dict_get data "id") = None ->
      tokens (shared (run (move_token e sid data) w))
      = (tokens (shared w) ++ [recovered_token data])%list
      /\ dict_keys (recovered_token data) = known_fields
      /\ (forall k v, In k known_fields -> dict_lookup data k = Some v ->
                      dict_lookup (recovered_token data) k = Some v)
      /\ (forall k, In k known_fields -> dict_lookup data k = None ->
                    dict_lookup (recovered_token data) k
                    = Some (default_field k))).
Proof.
  intros Hwf. split; [|split].
  - intros Hid Hnone. rewrite add_token_run. cbv zeta. rewrite Hid, Hnone.
    destruct data as [|kv data']; [discriminate Hid | reflexivity].
  - intros i t Hid Hfound. exists (merge_fields t data).
    destruct (add_token_merge_leaves_files e sid data w i t Hid Hfound)
      as [_ Hts].
    rewrite Hts. apply found_token_some in Hfound. destruct Hfound as [Hn _].
    split; [apply (nth_error_list_assign _ _ _ t), Hn|].
    split.
    + intros k v Hl. apply merge_fields_lookup; assumption.
    + intros k Hl. apply merge_fields_lookup_other, Hl.
  - intros Hnone. rewrite move_token_run. cbv zeta. rewrite Hnone.
    split; [reflexivity|]. split; [reflexivity|]. split.
    + intros k v. apply recovered_token_keeps_known.
    + intros k. apply recovered_token_defaults.
Qed.

(** The amended C5 at work: the merge of [add_t1_hp] into the stored [t1]
    keeps the new field [hp] and the old field [y]. *)
Lemma payload_fields_in_stored_token_witness :
  exists stored,
    nth_error
      (tokens (shared (run (add_token env_ok "A" add_t1_hp)
                         (world_of [token_t1])))) 0 = Some stored
    /\ dict_lookup stored "hp" = Some (PInt 10)
    /\ dict_lookup stored "y" = Some (PInt 0).
Proof.
  assert (Hwf : dict_wf add_t1_hp).
  { unfold dict_wf. simpl.
    repeat (constructor; [simpl; intuition discriminate|]). constructor. }
  destruct (payload_fields_in_stored_token env_ok "A" add_t1_hp
              (world_of [token_t1]) Hwf) as [_ [Hmerge _]].
  destruct (Hmerge 0 token_t1 eq_refl eq_refl) as [stored [Hn [Hin Hout]]].
  exists stored. split; [exact Hn|]. split.
  - apply Hin. reflexivity.
  - rewrite Hout; reflexivity.
Defined.

(* ================================================================== *)
(** ** C6: the identifiers [request_initial_state] fills in *)

(** C6, counterexample. The identifier is not made from the place of the
    token in the list. The goblin at place 0 of a one-token list and the
    same goblin at place 0 of a two-token list get different identifiers;
    two goblins at places 0 and 1 of one list get the same one. *)
Lemma backfill_id_ignores_position :
  nth_error
    (tokens (shared (run (request_initial_state env_ok "A")
                       (world_of [goblin])))) 0
  = Some (dict_set goblin "id" (PStr "server-token-1-42"))
  /\ nth_error
       (tokens (shared (run (request_initial_state env_ok "A")
                          (world_of [goblin; token_t1])))) 0
     = Some (dict_set goblin "id" (PStr "server-token-2-42"))
  /\ List.map token_id
       (tokens (shared (run (request_initial_state env_ok "A")
                          (world_of [goblin; goblin]))))
     = [PStr "server-token-2-42"; PStr "server-token-2-42"].
Proof.
  repeat split.
Qed.

(** C6, amended. A token whose [id] is missing or false for Python (null,
    empty string) gets the identifier [server-token-<n>-<h>], [n] the number
    of tokens of the list and [h] the hash of the token's text; a token
    with an [id] stays as it is; nothing is saved; the one message,
    [initial_state], goes to the requesting session only. *)
Theorem backfill_spec
  (e : env) (sid : string) (w : world) (i : nat) (t : dict) :
  nth_error (tokens (shared w)) i = Some t ->
  nth_error (tokens (shared (run (request_initial_state e sid) w))) i
  = Some
      (if truthy (dict_get t "id") then t
       else
         dict_set t "id"
           (PStr ("server-token-"
                  ++ str_of_Z (Z.of_nat (List.length (tokens (shared w))))
                  ++ "-" ++ str_of_Z (hash_str e t))))
  /\ List.length (tokens (shared (run (request_initial_state e sid) w)))
     = List.length (tokens (shared w))
  /\ files (run (request_initial_state e sid) w) = files w
  /\ exists payload,
       done_by (request_initial_state e sid) w
       = [Emit "initial_state" payload (ToSid sid)].
Proof.
  intros Hn. rewrite request_initial_state_run. cbv zeta. simpl.
  split; [|split; [|split]].
  - rewrite List.nth_error_map, Hn. simpl. unfold backfill_id.
    destruct (truthy (dict_get t "id")); reflexivity.
  - apply List.length_map.
  - reflexivity.
  - eexists. apply done_by_log. rewrite request_initial_state_run.
    cbv zeta. simpl. reflexivity.
Qed.

(** The amended C6 at work: a goblin without [id] next to token [t1]. *)
Lemma backfill_spec_witness :
  nth_error
    (tokens (shared (run (request_initial_state env_ok "A")
                       (world_of [goblin; token_t1])))) 1
  = Some token_t1
  /\ nth_error
       (tokens (shared (run (request_initial_state env_ok "A")
                          (world_of [goblin; token_t1])))) 0
     = Some (dict_set goblin "id" (PStr "server-token-2-42")).
Proof.
  split.
  - apply (backfill_spec env_ok "A" (world_of [goblin; token_t1]) 1 token_t1).
    reflexivity.
  - apply (backfill_spec env_ok "A" (world_of [goblin; token_t1]) 0 goblin).
    reflexivity.
Defined.

(* ================================================================== *)
(** ** C7: [change_map] with a plain reference *)

(** C7. A [change_map] whose [map] is a non-empty string that does not
    start with [data:image/] makes that very string the map of the shared
    state, leaves the tokens alone, calls [save_map] and then sends one
    [map_changed] to all sessions, its [map] being the string followed by
    [?t=] and the clock reading. *)
Theorem change_map_plain_reference
  (e : env) (sid : string) (data : dict) (w : world) (s : string) :
  dict_lookup data "map" = Some (PStr s) ->
  s <> "" ->
  startswith s "data:image/" = false ->
  map_ref (shared (run (change_map e sid data) w)) = PStr s
  /\ tokens (shared (run (change_map e sid data) w)) = tokens (shared w)
  /\ exists ok,
       done_by (change_map e sid data) w
       = [SaveMap ok;
          Emit "map_changed"
            (PDict [("map", PStr (s ++ "?t=" ++ str_of_Z (now e)))]) ToAll].
Proof.
  intros Hmap Hne Hpre.
  assert (Hget : dict_get data "map" = PStr s).
  { unfold dict_get, dict_get_default. rewrite Hmap. reflexivity. }
  assert (Htrue : truthy (PStr s) = true).
  { simpl. apply Bool.negb_true_iff. apply String.eqb_neq. exact Hne. }
  unfold change_map. cbv zeta. rewrite Hget, Htrue, Hpre.
  unfold done_by, run. rewrite !bind_apply.
  set (w1 := snd (set_map (PStr s) w)).
  destruct (save_map_spec e (PStr s) w1) as [Hs Hl].
  unfold sio_emit, record. cbn [fst snd shared log].
  rewrite Hs, Hl. subst w1. unfold_monad. simpl.
  split; [reflexivity|]. split; [reflexivity|].
  eexists. rewrite <- List.app_assoc. rewrite skipn_length_app. reflexivity.
Qed.

(** C7 on the design document's example. *)
Lemma change_map_plain_reference_witness :
  map_ref (shared (run (change_map env_ok "A" change_to_url) (world_of [])))
  = PStr "https://host/x.png"
  /\ exists ok,
       done_by (change_map env_ok "A" change_to_url) (world_of [])
       = [SaveMap ok;
          Emit "map_changed"
            (PDict [("map", PStr "https://host/x.png?t=1700000000")]) ToAll].
Proof.
  destruct (change_map_plain_reference env_ok "A" change_to_url (world_of [])
              "https://host/x.png" eq_refl)
    as [Hm [_ Hlog]]; [discriminate | reflexivity |].
  split; [exact Hm | exact Hlog].
Defined.

(* ================================================================== *)
(** ** C8: [extract_and_save_map_image] *)

Lemma remove_step_subset (e : env) (d : list (string * list byte))
  (n : string) (f : string * list byte) :
  In f (remove_step e d n) -> In f d.
Proof.
  unfold remove_step, dir_remove.
  destruct (startswith n "current_map."); [|auto].
  destruct (remove_ok e n); [|auto].
  intros H. apply List.filter_In in H. tauto.
Qed.

Lemma remove_loop_subset (e : env) (ns : list string)
  (d : list (string * list byte)) (f : string * list byte) :
  In f (List.fold_left (remove_step e) ns d) -> In f d.
Proof.
  revert d. induction ns as [|n ns IH]; simpl; intros d H; [exact H|].
  apply IH in H. apply remove_step_subset in H. exact H.
Qed.

(** A listed image whose removal succeeds is gone after the loop. *)
Lemma remove_loop_removes (e : env) (ns : list string)
  (d : list (string * list byte)) (f : string * list byte) :
  In (fst f) ns ->
  startswith (fst f) "current_map." = true ->
  remove_ok e (fst f) = true ->
  ~ In f (List.fold_left (remove_step e) ns d).
Proof.
  revert d. induction ns as [|n ns IH]; simpl; intros d Hin Hpre Hok H;
    [contradiction|].
  destruct Hin as [-> | Hin].
  - apply remove_loop_subset in H. unfold remove_step in H.
    rewrite Hpre, Hok in H. unfold dir_remove in H.
    apply List.filter_In in H. destruct H as [_ H].
    rewrite String.eqb_refl in H. discriminate.
  - exact (IH _ Hin Hpre Hok H).
Qed.

Lemma remove_old_maps_subset (e : env) (dir : list (string * list byte))
  (n : string) :
  In n (listdir (remove_old_maps e dir)) -> In n (listdir dir).
Proof.
  unfold listdir. intros H. apply List.in_map_iff in H.
  destruct H as [f [<- Hf]]. apply List.in_map.
  exact (remove_loop_subset e _ _ f Hf).
Qed.

Lemma remove_old_maps_clean (e : env) (dir : list (string * list byte)) :
  (forall n, In n (listdir dir) -> startswith n "current_map." = true ->
             remove_ok e n = true) ->
  current_maps (remove_old_maps e dir) = [].
Proof.
  intros Hall. unfold current_maps.
  destruct (List.filter _ _) as [|n l] eqn:E; [reflexivity|].
  assert (Hn : In n (List.filter (fun n => startswith n "current_map.")
                       (listdir (remove_old_maps e dir)))).
  { rewrite E. left. reflexivity. }
  apply List.filter_In in Hn. destruct Hn as [Hin Hpre].
  unfold listdir in Hin. apply List.in_map_iff in Hin.
  destruct Hin as [f [<- Hf]]. exfalso.
  assert (Hold : In (fst f) (listdir dir)).
  { apply List.in_map. exact (remove_loop_subset e _ _ f Hf). }
  exact (remove_loop_removes e _ _ f Hold Hpre (Hall _ Hold Hpre) Hf).
Qed.

Lemma current_maps_dir_write (dir : list (string * list byte))
  (name : string) (data : list byte) :
  current_maps dir = [] ->
  startswith name "current_map." = true ->
  current_maps (dir_write dir name data) = [name].
Proof.
  unfold current_maps, listdir. intros Hnone Hpre.
  induction dir as [|[n c] dir IH]; simpl in *.
  - rewrite Hpre. reflexivity.
  - destruct (startswith n "current_map.") eqn:En; [discriminate|].
    destruct (String.eqb n name) eqn:E.
    + apply String.eqb_eq in E. subst n. rewrite En in Hpre. discriminate.
    + simpl. rewrite En. apply IH, Hnone.
Qed.

Lemma listdir_dir_write (dir : list (string * list byte))
  (name : string) (data : list byte) (n : string) :
  In n (listdir (dir_write dir name data)) -> n = name \/ In n (listdir dir).
Proof.
  unfold listdir. induction dir as [|[n0 c] dir IH]; simpl.
  - intros [<- | []]. left. reflexivity.
  - destruct (String.eqb n0 name) eqn:E; simpl.
    + intros [<- | H]; right; [left; reflexivity | right; exact H].
    + intros [<- | H]; [right; left; reflexivity|].
      destruct (IH H) as [-> | H']; [left; reflexivity | right; right; exact H'].
Qed.

(** The ways [extract_and_save_map_image] ends: nothing done; the old
    images removed and nothing written; the old images removed and the new
    one written, whole (the call succeeds) or in part (it fails). The
    shared state, the two records and the log stay. *)
Lemma extract_cases (e : env) (url : string) (w : world) :
  let r := extract_and_save_map_image e url w in
  (r = (None, w))
  \/ (fst r = None
      /\ maps_dir (files (snd r)) = remove_old_maps e (maps_dir (files w)))
  \/ (exists header encoded extension data,
        split_once "," url = Some (header, encoded)
        /\ b64decode e encoded = Some data
        /\ ((fst r = Some ("/maps/current_map." ++ extension)
             /\ maps_dir (files (snd r))
                = dir_write (remove_old_maps e (maps_dir (files w)))
                    ("current_map." ++ extension) data)
            \/ (fst r = None
                /\ image_write e ("current_map." ++ extension) = WriteError
                /\ maps_dir (files (snd r))
                   = dir_write (remove_old_maps e (maps_dir (files w)))
                       ("current_map." ++ extension) (torn e data)))).
Proof.
  cbv zeta. unfold extract_and_save_map_image.
  destruct (negb (truthy (PStr url)) || negb (startswith url "data:image/"));
    [left; reflexivity|].
  destruct (split_once "," url) as [[header encoded]|]; [|left; reflexivity].
  destruct (nth_error (split_on ";" header) 0) as [before_semi|];
    [|left; reflexivity].
  destruct (nth_error (split_on ":" before_semi) 1) as [mime_type|];
    [|left; reflexivity].
  destruct (nth_error (split_on "/" mime_type) 1) as [extension|];
    [|left; reflexivity].
  right. unfold_monad.
  destruct (b64decode e encoded) as [data|] eqn:Hdec.
  - destruct (image_write e ("current_map." ++ extension)) eqn:Hw.
    + right. exists header, encoded, extension, data.
      split; [reflexivity|]. split; [exact Hdec|]. left. split; reflexivity.
    + left. split; reflexivity.
    + right. exists header, encoded, extension, data.
      split; [reflexivity|]. split; [exact Hdec|]. right.
      split; [reflexivity|]. split; [exact Hw | reflexivity].
  - left. split; reflexivity.
Qed.

Lemma startswith_app (p s : string) : startswith (p ++ s) p = true.
Proof.
  unfold startswith. induction p as [|a p IH]; simpl.
  - destruct s; reflexivity.
  - destruct (ascii_dec a a) as [_ | Hne]; [exact IH | contradiction].
Qed.

Lemma dir_lookup_dir_write_same (dir : list (string * list byte))
  (name : string) (data : list byte) :
  dir_lookup (dir_write dir name data) name = Some data.
Proof.
  induction dir as [|[n c] dir IH]; simpl.
  - rewrite String.eqb_refl. reflexivity.
  - destruct (String.eqb n name) eqn:E; simpl; rewrite E;
      [reflexivity | exact IH].
Qed.

(** C8, counterexample. The directory holds [current_map.jpg] and its
    removal fails; the error is caught and the loop goes on. The call for a
    PNG image succeeds, and two map images are in the directory. *)
Lemma two_map_images_after_success :
  fst (extract_and_save_map_image env_locked "data:image/png;base64,AAAA"
         world_with_jpg)
  = Some "/maps/current_map.png"
  /\ current_maps
       (maps_dir
          (files
             (snd (extract_and_save_map_image env_locked
                     "data:image/png;base64,AAAA" world_with_jpg))))
     = ["current_map.jpg"; "current_map.png"].
Proof.
  split; reflexivity.
Qed.

(** The decoder does not reject every text that is no Base64: characters
    outside the alphabet are skipped. The payload [!!] decodes to no bytes,
    and the call stores an empty [current_map.png] and returns its path. *)
Lemma bad_base64_is_stored :
  base64_b64decode "!!" = Some []
  /\ fst (extract_and_save_map_image env_ok "data:image/png;base64,!!"
            world_with_jpg)
     = Some "/maps/current_map.png"
  /\ maps_dir
       (files
          (snd (extract_and_save_map_image env_ok "data:image/png;base64,!!"
                  world_with_jpg)))
     = [("current_map.png", [])].
Proof.
  repeat split.
Qed.

(** C8, amended. (1) [data:image/png;base64,AAAA] gives the relative path
    [/maps/current_map.png] when the payload decodes and the file can be
    written. (2) After a successful call in which every old map image could
    be removed, exactly one map image is in the directory, the new one.
    (3) A string without the prefix, or without a comma, gives [None] and
    leaves the world as it was. (4) A payload that the decoder rejects
    gives [None], and no file is in the directory that was not there
    before. (5) A payload that the decoder accepts is stored, whatever it
    is: a PNG data URL gives [/maps/current_map.png], and that file holds
    the bytes the decoder returned. *)
Theorem extract_and_save_map_image_spec
  (e : env) (url : string) (w : world) :
  (forall data,
     b64decode e "AAAA" = Some data ->
     image_write e "current_map.png" = WriteOk ->
     fst (extract_and_save_map_image e "data:image/png;base64,AAAA" w)
     = Some "/maps/current_map.png"
     /\ endswith "/maps/current_map.png" ".png" = true)
  /\ (forall u,
        fst (extract_and_save_map_image e url w) = Some u ->
        (forall n, In n (listdir (maps_dir (files w))) ->
                   startswith n "current_map." = true ->
                   remove_ok e n = true) ->
        exists extension,
          u = "/maps/current_map." ++ extension
          /\ current_maps
               (maps_dir (files (snd (extract_and_save_map_image e url w))))
             = ["current_map." ++ extension])
  /\ (startswith url "data:image/" = false \/ split_once "," url = None ->
      extract_and_save_map_image e url w = (None, w))
  /\ (forall header encoded,
        split_once "," url = Some (header, encoded) ->
        b64decode e encoded = None ->
        fst (extract_and_save_map_image e url w) = None
        /\ forall n,
             In n (listdir
                     (maps_dir
                        (files (snd (extract_and_save_map_image e url w))))) ->
             In n (listdir (maps_dir (files w))))
  /\ (forall payload data,
        b64decode e payload = Some data ->
        image_write e "current_map.png" = WriteOk ->
        fst (extract_and_save_map_image e
               ("data:image/png;base64," ++ payload) w)
        = Some "/maps/current_map.png"
        /\ dir_lookup
             (maps_dir
                (files
                   (snd (extract_and_save_map_image e
                           ("data:image/png;base64," ++ payload) w))))
             "current_map.png"
           = Some data).
Proof.
  split; [|split; [|split; [|split]]].
  - intros data Hdec Hok. split; [|reflexivity].
    unfold extract_and_save_map_image. simpl. unfold_monad.
    rewrite Hdec. simpl.
    change ("current_map." ++ "png") with "current_map.png".
    rewrite Hok. reflexivity.
  - intros u Hu Hall.
    destruct (extract_cases e url w) as [H | [[H _] | H]].
    + rewrite H in Hu. discriminate.
    + rewrite H in Hu. discriminate.
    + destruct H as [header [encoded [extension [data [_ [_ H]]]]]].
      destruct H as [[Hr Hd] | [Hr _]]; [|rewrite Hr in Hu; discriminate].
      exists extension. rewrite Hr in Hu. injection Hu as <-.
      split; [reflexivity|]. rewrite Hd.
      apply current_maps_dir_write; [|apply startswith_app].
      apply remove_old_maps_clean, Hall.
  - intros [Hpre | Hsplit]; unfold extract_and_save_map_image.
    + rewrite Hpre. simpl. rewrite Bool.orb_true_r. reflexivity.
    + rewrite Hsplit. destruct (_ || _); reflexivity.
  - intros header encoded Hsplit Hdec.
    destruct (extract_cases e url w) as [H | [[H Hd] | H]].
    + rewrite H. split; [reflexivity|]. intros n Hin. exact Hin.
    + split; [exact H|]. intros n Hin. rewrite Hd in Hin.
      apply (remove_old_maps_subset e), Hin.
    + destruct H as [h' [enc' [ext [data [Hs' [Hd' _]]]]]].
      rewrite Hsplit in Hs'. injection Hs' as <- <-.
      rewrite Hdec in Hd'. discriminate.
  - intros payload data Hdec Hok.
    unfold extract_and_save_map_image. simpl. unfold_monad.
    rewrite Hdec. simpl.
    change ("current_map." ++ "png") with "current_map.png".
    rewrite Hok. simpl. split; [reflexivity|].
    apply dir_lookup_dir_write_same.
Qed.

(** The amended C8 at work: a PNG image stored over an old JPEG one that
    can be removed; and a payload cut short, which the decoder rejects. *)
Lemma extract_and_save_map_image_spec_witness :
  fst (extract_and_save_map_image env_ok "data:image/png;base64,AAAA"
         world_with_jpg)
  = Some "/maps/current_map.png"
  /\ (exists extension,
        "/maps/current_map.png" = "/maps/current_map." ++ extension
        /\ current_maps
             (maps_dir
                (files
                   (snd (extract_and_save_map_image env_ok
                           "data:image/png;base64,AAAA" world_with_jpg))))
           = ["current_map." ++ extension])
  /\ fst (extract_and_save_map_image env_ok "data:image/png;base64,QUJ"
            world_with_jpg)
     = None.
Proof.
  destruct (extract_and_save_map_image_spec env_ok
              "data:image/png;base64,AAAA" world_with_jpg)
    as [Hpng [Hone _]].
  destruct (Hpng [x00; x00; x00] eq_refl eq_refl) as [Hres _].
  split; [exact Hres|]. split.
  - apply Hone; [exact Hres|]. intros n _ _. reflexivity.
  - destruct (extract_and_save_map_image_spec env_ok
                "data:image/png;base64,QUJ" world_with_jpg)
      as [_ [_ [_ [Hbad _]]]].
    destruct (Hbad "data:image/png;base64" "QUJ" eq_refl eq_refl)
      as [Hnone _].
    exact Hnone.
Defined.

(* ================================================================== *)
(** ** C9: [save_tokens] then [load_saved_tokens] *)

Lemma as_token_list_map (ts : list dict) :
  as_token_list (List.map PDict ts) = Some ts.
Proof.
  induction ts as [|t ts IH]; simpl; [reflexivity|].
  rewrite IH. reflexivity.
Qed.

(** C9. After a [save_tokens] that returned [True], [load_saved_tokens]
    returns the token list that was in memory, token by token and field by
    field, and a server started on these files has that token list. *)
Theorem save_then_load_tokens (e : env) (w w' : world) :
  save_tokens e w = (true, w') ->
  load_saved_tokens (files w') = PList (List.map PDict (tokens (shared w)))
  /\ as_tokens (load_saved_tokens (files w')) = Some (tokens (shared w))
  /\ exists restarted,
       startup (files w') = Some restarted
       /\ tokens (shared restarted) = tokens (shared w).
Proof.
  rewrite save_tokens_spec. intros H. injection H as Hok <-.
  cbn [files]. unfold files_after_save. unfold tokens_write_ok in Hok.
  destruct (tokens_write e); try discriminate Hok. clear Hok.
  assert (Hload :
    load_saved_tokens
      (set_tokens_save_file (files w)
         (FileJson (tokens_document (tokens (shared w)))))
    = PList (List.map PDict (tokens (shared w)))) by reflexivity.
  split; [exact Hload|].
  assert (Has :
    as_tokens (PList (List.map PDict (tokens (shared w))))
    = Some (tokens (shared w))) by apply as_token_list_map.
  split; [rewrite Hload; exact Has|].
  unfold startup. rewrite Hload, Has. eexists. split; reflexivity.
Qed.

(** C9 on a server holding [t1] and a goblin. *)
Lemma save_then_load_tokens_witness :
  as_tokens
    (load_saved_tokens
       (files (snd (save_tokens env_ok (world_of [token_t1; goblin])))))
  = Some [token_t1; goblin].
Proof.
  apply (save_then_load_tokens env_ok (world_of [token_t1; goblin])
           (snd (save_tokens env_ok (world_of [token_t1; goblin])))).
  reflexivity.
Defined.

(* ================================================================== *)
(** ** C10: [load_saved_map] *)

(** C10. [load_saved_map] returns [None] when the map record is absent,
    cannot be read, is not JSON or is JSON but no object, and also when it
    parses and the value under [map] is null or the empty string. What it
    returns otherwise is the value under [map] of a record that parsed, a
    value that is not empty. *)
Theorem load_saved_map_spec (d : disk) :
  (map_save_file d = FileAbsent -> load_saved_map d = PNone)
  /\ (map_save_file d = FileUnreadable -> load_saved_map d = PNone)
  /\ (map_save_file d = FileGarbage -> load_saved_map d = PNone)
  /\ (forall v,
        map_save_file d = FileJson v ->
        (forall data, v <> PDict data) ->
        load_saved_map d = PNone)
  /\ (forall data,
        map_save_file d = FileJson (PDict data) ->
        dict_get data "map" = PNone \/ dict_get data "map" = PStr "" ->
        load_saved_map d = PNone)
  /\ (load_saved_map d <> PNone ->
      exists data,
        map_save_file d = FileJson (PDict data)
        /\ load_saved_map d = dict_get data "map"
        /\ truthy (dict_get data "map") = true
        /\ dict_get data "map" <> PStr "").
Proof.
  unfold load_saved_map.
  split; [intros ->; reflexivity|].
  split; [intros ->; reflexivity|].
  split; [intros ->; reflexivity|].
  split.
  { intros v -> Hobj. destruct v as [| | | | |data]; try reflexivity.
    elim (Hobj data). reflexivity. }
  split.
  - intros data -> [H | H]; rewrite H; reflexivity.
  - destruct (map_save_file d) as [| | |v]; try (intros H; now elim H).
    destruct v as [| | | | |data]; try (intros H; now elim H).
    destruct (truthy (dict_get data "map")) eqn:Ht; [|intros H; now elim H].
    intros _. exists data.
    split; [reflexivity|]. split; [reflexivity|]. split; [exact Ht|].
    intros Heq. rewrite Heq in Ht. discriminate.
Qed.

(** C10 at work: a record holding the empty string, and one holding a
    path. *)
Lemma load_saved_map_spec_witness :
  load_saved_map (disk_with_map (PStr "")) = PNone
  /\ exists data,
       map_save_file (disk_with_map (PStr "/maps/current_map.png"))
       = FileJson (PDict data)
       /\ load_saved_map (disk_with_map (PStr "/maps/current_map.png"))
          = dict_get data "map".
Proof.
  split.
  - destruct (load_saved_map_spec (disk_with_map (PStr "")))
      as [_ [_ [_ [_ [Hempty _]]]]].
    apply (Hempty [("map", PStr "")]); [reflexivity | right; reflexivity].
  - destruct (load_saved_map_spec (disk_with_map (PStr "/maps/current_map.png")))
      as [_ [_ [_ [_ [_ Hsome]]]]].
    destruct Hsome as [data [Hf [Hl _]]]; [discriminate|].
    exists data. split; assumption.
Defined.

(* ================================================================== *)
(** ** Further testable properties of the design document *)

Lemma find_token_from_unknown (k : nat) (ts : list dict) (id : pyval) :
  (forall t, In t ts -> py_eq (token_id t) id = false) ->
  find_token_from k ts id = None.
Proof.
  revert k. induction ts as [|t ts IH]; simpl; intros k H; [reflexivity|].
  pose proof (H t (or_introl eq_refl)) as Ht. unfold token_id in Ht.
  rewrite Ht. apply IH. intros u Hu. apply H. right. exact Hu.
Qed.

Lemma found_token_unknown (ts : list dict) (id : pyval) :
  (forall t, In t ts -> py_eq (token_id t) id = false) ->
  found_token ts id = None.
Proof.
  intros H. unfold found_token, find_token.
  rewrite (find_token_from_unknown 0 ts id H). reflexivity.
Qed.

(** X3. A [move_token] for an identifier no stored token has sends one
    [token_added] to all, then one [token_moved] to all but the sender,
    then saves; the token list grows by exactly one token. *)
Theorem move_token_unknown_id
  (e : env) (sid : string) (data : dict) (w : world) :
  (forall t, In t (tokens (shared w)) ->
             py_eq (token_id t) (dict_get data "id") = false) ->
  done_by (move_token e sid data) w
  = [Emit "token_added" (PDict (recovered_token data)) ToAll;
     Emit "token_moved" (PDict data) (SkipSid sid);
     SaveTokens (tokens_write_ok e)]
  /\ tokens (shared (run (move_token e sid data) w))
     = (tokens (shared w) ++ [recovered_token data])%list
  /\ List.length (tokens (shared (run (move_token e sid data) w)))
     = S (List.length (tokens (shared w))).
Proof.
  intros Hunknown. apply found_token_unknown in Hunknown.
  rewrite move_token_log, move_token_run. cbv zeta. rewrite Hunknown. simpl.
  split; [reflexivity|]. split; [reflexivity|].
  rewrite List.length_app. simpl. lia.
Qed.

(** X3 at work: token [t9] on a server that holds [t1]. *)
Lemma move_token_unknown_id_witness :
  List.length
    (tokens (shared (run (move_token env_ok "A" move_t9) (world_of [token_t1]))))
  = 2.
Proof.
  apply (move_token_unknown_id env_ok "A" move_t9 (world_of [token_t1])).
  intros t [<- | []]. reflexivity.
Defined.

(** X4. A [remove_token] for an identifier no stored token has leaves the
    world as it was: no mutation, no broadcast, no write. *)
Theorem remove_token_unknown_id
  (e : env) (sid : string) (data : dict) (w : world) :
  (forall t, In t (tokens (shared w)) ->
             py_eq (token_id t) (dict_get data "id") = false) ->
  run (remove_token e sid data) w = w
  /\ done_by (remove_token e sid data) w = [].
Proof.
  intros Hunknown.
  assert (Hkeep :
    List.filter (fun t => negb (py_eq (dict_get t "id") (dict_get data "id")))
      (tokens (shared w)) = tokens (shared w)).
  { apply filter_keeps_all. intros t Hin.
    pose proof (Hunknown t Hin) as Ht. unfold token_id in Ht.
    rewrite Ht. reflexivity. }
  rewrite remove_token_log, remove_token_run. cbv zeta.
  rewrite Hkeep, Nat.ltb_irrefl. destruct w as [[ts m] d l].
  split; reflexivity.
Qed.

(** X4 at work: removing [t9] from a server that holds [t1]. *)
Lemma remove_token_unknown_id_witness :
  run (remove_token env_ok "A" move_t9) (world_of [token_t1])
  = world_of [token_t1].
Proof.
  apply (remove_token_unknown_id env_ok "A" move_t9 (world_of [token_t1])).
  intros t [<- | []]. reflexivity.
Defined.

(** X1 at work: a move of [t1] on a server holding [t1] and a goblin. *)
Lemma token_handlers_keep_ids_unique_witness :
  ids_unique
    (tokens (shared (run (move_token env_ok "A" move_t1)
                       (world_of [token_t1; goblin])))) = true.
Proof.
  destruct (token_handlers_keep_ids_unique env_ok "A" move_t1
              (world_of [token_t1; goblin]) eq_refl) as [Hmove _].
  exact Hmove.
Defined.

(** X2 at work: after a move of [t1] the record holds the moved token. *)
Lemma saving_handlers_persist_witness :
  persisted_tokens
    (files (run (move_token env_ok "A" move_t1) (world_of [token_t1])))
    (tokens (shared (run (move_token env_ok "A" move_t1) (world_of [token_t1])))).
Proof.
  destruct (saving_handlers_persist env_ok "A" move_t1 (world_of [token_t1])
              eq_refl) as [Hmove _].
  exact Hmove.
Defined.

Lemma dict_set_same_value (d : dict) (k : string) (v : pyval) :
  dict_lookup d k = Some v -> dict_set d k v = d.
Proof.
  induction d as [|[k0 v0] d IH]; simpl; [discriminate|].
  destruct (String.eqb k0 k) eqn:E.
  - intros H. injection H as ->. reflexivity.
  - intros H. rewrite (IH H). reflexivity.
Qed.

Lemma merge_fields_nothing_new (data d : dict) :
  (forall k v, In (k, v) data -> dict_lookup d k = Some v) ->
  merge_fields d data = d.
Proof.
  unfold merge_fields. induction data as [|[k v] data IH]; simpl; intros H;
    [reflexivity|].
  rewrite (dict_set_same_value d k v (H k v (or_introl eq_refl))).
  apply IH. intros k' v' Hin. apply H. right. exact Hin.
Qed.

Lemma dict_lookup_in_wf (d : dict) (k : string) (v : pyval) :
  dict_wf d -> In (k, v) d -> dict_lookup d k = Some v.
Proof.
  unfold dict_wf. induction d as [|[k0 v0] d IH]; simpl; intros Hwf Hin;
    [contradiction|].
  inversion Hwf as [|? ? Hnotin Hwf']; subst.
  destruct Hin as [Heq | Hin].
  - injection Heq as -> ->. rewrite String.eqb_refl. reflexivity.
  - destruct (String.eqb k0 k) eqn:E; [|apply IH; assumption].
    apply String.eqb_eq in E. subst k0. exfalso. apply Hnotin.
    apply (List.in_map fst) in Hin. exact Hin.
Qed.

(** Merging the same payload a second time changes nothing. *)
Lemma merge_fields_idempotent (data t : dict) :
  dict_wf data ->
  merge_fields (merge_fields t data) data = merge_fields t data.
Proof.
  intros Hwf. apply merge_fields_nothing_new. intros k v Hin.
  apply merge_fields_lookup; [exact Hwf|].
  apply dict_lookup_in_wf; assumption.
Qed.

Lemma list_assign_twice {A : Type} (l : list A) (i : nat) (x y : A) :
  list_assign (list_assign l i x) i y = list_assign l i y.
Proof.
  revert i. induction l as [|z l IH]; intros i; [reflexivity|].
  destruct i as [|i]; simpl; [reflexivity | rewrite IH; reflexivity].
Qed.

Lemma py_eq_scalar_refl (a : pyval) : is_scalar a = true -> py_eq a a = true.
Proof.
  destruct a as [|x|x|x|x|x]; simpl; intros H; try discriminate.
  - reflexivity.
  - destruct x; reflexivity.
  - apply Z.eqb_refl.
  - apply String.eqb_refl.
Qed.

(** The first token with the identifier keeps its place when it is
    replaced by a token with an equal identifier. *)
Lemma find_token_from_assign (k : nat) (ts : list dict) (id : pyval)
  (i : nat) (t t' : dict) :
  find_token_from k ts id = Some (i, t) ->
  py_eq (token_id t') id = true ->
  find_token_from k (list_assign ts (i - k) t') id = Some (i, t').
Proof.
  revert k. induction ts as [|u ts IH]; simpl; intros k Hf He; [discriminate|].
  destruct (py_eq (dict_get u "id") id) eqn:E.
  - injection Hf as <- <-. rewrite Nat.sub_diag. simpl.
    unfold token_id in He. rewrite He. reflexivity.
  - pose proof (find_token_from_some _ _ _ _ _ Hf) as [Hle _].
    replace (i - k) with (S (i - S k)) by lia. simpl. rewrite E.
    apply IH; assumption.
Qed.

Lemma merged_token_id (data t : dict) :
  dict_wf data ->
  truthy (dict_get data "id") = true ->
  token_id (merge_fields t data) = dict_get data "id"
  /\ truthy (PDict (merge_fields t data)) = true.
Proof.
  intros Hwf Hid. unfold token_id, dict_get, dict_get_default in *.
  destruct (dict_lookup data "id") as [v|] eqn:Hl; [|discriminate Hid].
  pose proof (merge_fields_lookup data t "id" v Hwf Hl) as Hm.
  rewrite Hm. split; [reflexivity|].
  destruct (merge_fields t data); [discriminate Hm | reflexivity].
Qed.

(** X5. An [add_token] payload for a token that exists, sent twice: each
    call sends exactly one [token_updated] to all but the sender, and the
    second call leaves the token list as the first made it. *)
Theorem add_token_twice
  (e : env) (sid : string) (data : dict) (w : world) (i : nat) (t : dict) :
  dict_wf data ->
  is_scalar (dict_get data "id") = true ->
  truthy (dict_get data "id") = true ->
  found_token (tokens (shared w)) (dict_get data "id") = Some (i, t) ->
  done_by (add_token e sid data) w
  = [Emit "token_updated" (PDict data) (SkipSid sid)]
  /\ done_by (add_token e sid data) (run (add_token e sid data) w)
     = [Emit "token_updated" (PDict data) (SkipSid sid)]
  /\ tokens (shared (run (add_token e sid data) (run (add_token e sid data) w)))
     = tokens (shared (run (add_token e sid data) w)).
Proof.
  intros Hwf Hs Hid Hfound.
  destruct (merged_token_id data t Hwf Hid) as [Hmid Hmtrue].
  assert (Hne : negb (truthy (PDict data)) || negb (truthy (dict_get data "id"))
                = false).
  { rewrite Hid. destruct data; [discriminate Hid | reflexivity]. }
  assert (Hts1 : tokens (shared (run (add_token e sid data) w))
                 = list_assign (tokens (shared w)) i (merge_fields t data)).
  { apply (add_token_merge_leaves_files e sid data w i t Hid Hfound). }
  assert (Hfound1 :
    found_token (tokens (shared (run (add_token e sid data) w)))
      (dict_get data "id") = Some (i, merge_fields t data)).
  { rewrite Hts1. unfold found_token, find_token in *.
    destruct (find_token_from 0 (tokens (shared w)) (dict_get data "id"))
      as [[j u]|] eqn:Hf; [|discriminate Hfound].
    destruct (truthy (PDict u)); [|discriminate Hfound].
    injection Hfound as -> ->.
    pose proof (find_token_from_assign 0 _ _ i t (merge_fields t data) Hf) as Ha.
    rewrite Nat.sub_0_r in Ha. rewrite Ha.
    - rewrite Hmtrue. reflexivity.
    - rewrite Hmid. apply py_eq_scalar_refl, Hs. }
  split; [|split].
  - rewrite add_token_log, Hne, Hfound. reflexivity.
  - rewrite add_token_log, Hne, Hfound1. reflexivity.
  - destruct (add_token_merge_leaves_files e sid data
                (run (add_token e sid data) w) i (merge_fields t data)
                Hid Hfound1) as [_ Hts2].
    rewrite Hts2, Hts1, list_assign_twice, merge_fields_idempotent by exact Hwf.
    reflexivity.
Qed.

(** X5 at work: the update of [t1] sent twice. *)
Lemma add_token_twice_witness :
  tokens (shared (run (add_token env_ok "A" update_t1)
                    (run (add_token env_ok "A" update_t1) (world_of [token_t1]))))
  = tokens (shared (run (add_token env_ok "A" update_t1) (world_of [token_t1]))).
Proof.
  assert (Hwf : dict_wf update_t1).
  { unfold dict_wf. simpl.
    repeat (constructor; [simpl; intuition discriminate|]). constructor. }
  apply (add_token_twice env_ok "A" update_t1 (world_of [token_t1]) 0 token_t1
           Hwf eq_refl eq_refl eq_refl).
Defined.

(** X6. [request_current_map] changes nothing and answers the requesting
    session only: [no_map_available] when no map is set; [map_changed] with
    the stored URL when it starts with [http://] or [https://], and with
    the URL made absolute on the server's address otherwise, both followed
    by [?t=] and the clock reading. *)
Theorem request_current_map_spec (e : env) (sid : string) (w : world) :
  shared (run (request_current_map e sid) w) = shared w
  /\ files (run (request_current_map e sid) w) = files w
  /\ (map_ref (shared w) = PNone ->
      done_by (request_current_map e sid) w
      = [Emit "no_map_available" (PDict []) (ToSid sid)])
  /\ (forall s,
        map_ref (shared w) = PStr s -> s <> "" ->
        done_by (request_current_map e sid) w
        = [Emit "map_changed"
             (PDict
                [("map",
                  PStr
                    (if startswith s "http://" || startswith s "https://"
                     then s ++ "?t=" ++ str_of_Z (now e)
                     else "http://" ++ get_local_ip e ++ ":" ++ str_of_Z PORT
                          ++ s ++ "?t=" ++ str_of_Z (now e)))])
             (ToSid sid)]).
Proof.
  split; [|split; [|split]].
  - unfold request_current_map. unfold_monad.
    destruct w as [[ts m] d l]. simpl.
    destruct (truthy m); [|reflexivity].
    destruct m; try reflexivity.
    destruct (negb _); reflexivity.
  - unfold request_current_map. unfold_monad.
    destruct w as [[ts m] d l]. simpl.
    destruct (truthy m); [|reflexivity].
    destruct m; try reflexivity.
    destruct (negb _); reflexivity.
  - intros Hm. apply done_by_log. unfold request_current_map. unfold_monad.
    simpl. rewrite Hm. reflexivity.
  - intros s Hm Hne. apply done_by_log.
    unfold request_current_map. unfold_monad. simpl. rewrite Hm. simpl.
    replace (negb (String.eqb s "")) with true
      by (symmetry; apply Bool.negb_true_iff, String.eqb_neq, Hne).
    destruct (startswith s "http://" || startswith s "https://");
      reflexivity.
Qed.

(** X6 at work: a relative map path is made absolute. *)
Lemma request_current_map_spec_witness :
  done_by (request_current_map env_ok "B") world_with_map
  = [Emit "map_changed"
       (PDict
          [("map",
            PStr "http://192.168.1.5:9000/maps/current_map.png?t=1700000000")])
       (ToSid "B")].
Proof.
  destruct (request_current_map_spec env_ok "B" world_with_map)
    as [_ [_ [_ Hurl]]].
  apply (Hurl "/maps/current_map.png"); [reflexivity | discriminate].
Defined.

(* ================================================================== *)
(** ** Lookup by identifier *)

Lemma find_token_from_first (k : nat) (ts : list dict) (id : pyval)
  (i : nat) (t : dict) :
  find_token_from k ts id = Some (i, t) ->
  forall j u, j < i - k -> nth_error ts j = Some u ->
              py_eq (token_id u) id = false.
Proof.
  revert k. induction ts as [|t0 ts IH]; simpl; intros k H j u Hj Hn;
    [discriminate|].
  destruct (py_eq (dict_get t0 "id") id) eqn:E.
  - injection H as <- <-. lia.
  - destruct j as [|j]; simpl in Hn.
    + injection Hn as <-. exact E.
    + pose proof (find_token_from_some _ _ _ _ _ H) as [Hle _].
      apply (IH (S k) H j u); [lia | exact Hn].
Qed.

(** X7. [find_token] is a scan for the first match: the token it returns
    stands in the list and has the identifier, and no token before it has;
    it returns nothing exactly when no token has the identifier. *)
Theorem find_token_first_match (ts : list dict) (id : pyval) :
  match find_token ts id with
  | Some (i, t) =>
      nth_error ts i = Some t
      /\ py_eq (token_id t) id = true
      /\ forall j u, j < i -> nth_error ts j = Some u ->
                     py_eq (token_id u) id = false
  | None => forall t, In t ts -> py_eq (token_id t) id = false
  end.
Proof.
  unfold find_token.
  destruct (find_token_from 0 ts id) as [[i t]|] eqn:E.
  - pose proof (find_token_from_some _ _ _ _ _ E) as [_ [Hn He]].
    rewrite Nat.sub_0_r in Hn. split; [exact Hn|]. split; [exact He|].
    intros j u Hj. apply (find_token_from_first _ _ _ _ _ E).
    lia.
  - apply (find_token_from_none _ _ _ E).
Qed.

(* ================================================================== *)
(** ** Loading at server start *)

Lemma load_saved_tokens_no_object (d : disk) :
  (forall data, tokens_save_file d <> FileJson (PDict data)) ->
  load_saved_tokens d = PList [].
Proof.
  unfold load_saved_tokens. intros Hno.
  destruct (tokens_save_file d) as [| | |v]; try reflexivity.
  destruct v as [| | | | |data]; try reflexivity.
  elim (Hno data). reflexivity.
Qed.

(** X8. [load_saved_tokens] returns the empty list when the token record
    is absent, cannot be read, is not JSON, is JSON but no object, has no
    [tokens] key, or holds under [tokens] a value without a length (null, a
    number, a boolean). Any other value under [tokens] is returned as it
    is. The result always has a length. *)
Theorem load_saved_tokens_spec (d : disk) :
  has_len (load_saved_tokens d) = true
  /\ ((forall data, tokens_save_file d <> FileJson (PDict data)) ->
      load_saved_tokens d = PList [])
  /\ (forall data,
        tokens_save_file d = FileJson (PDict data) ->
        (dict_lookup data "tokens" = None -> load_saved_tokens d = PList [])
        /\ (forall v, dict_lookup data "tokens" = Some v ->
                      load_saved_tokens d = if has_len v then v else PList [])).
Proof.
  unfold load_saved_tokens. split; [|split].
  - destruct (tokens_save_file d) as [| | |v]; try reflexivity.
    destruct v as [| | | | |data]; try reflexivity.
    destruct (has_len (dict_get_default data "tokens" (PList []))) eqn:E;
      [exact E | reflexivity].
  - fold (load_saved_tokens d). apply load_saved_tokens_no_object.
  - intros data ->. unfold dict_get_default. split.
    + intros ->. reflexivity.
    + intros v ->. reflexivity.
Qed.

(** X8 at work: a record whose [tokens] is a number, and an absent one. *)
Lemma load_saved_tokens_spec_witness :
  load_saved_tokens (disk_with_tokens (PInt 5)) = PList []
  /\ load_saved_tokens disk_empty = PList [].
Proof.
  split.
  - destruct (load_saved_tokens_spec (disk_with_tokens (PInt 5)))
      as [_ [_ Hobj]].
    destruct (Hobj [("tokens", PInt 5)] eq_refl) as [_ Hval].
    apply (Hval (PInt 5)). reflexivity.
  - destruct (load_saved_tokens_spec disk_empty) as [_ [Hno _]].
    apply Hno. intros data. discriminate.
Defined.

(** X9. A server that starts without usable records starts empty: when
    neither record is a JSON object, the token list is empty and no map is
    set; the files are left as they are. *)
Theorem startup_without_records (d : disk) :
  (forall data, tokens_save_file d <> FileJson (PDict data)) ->
  (forall data, map_save_file d <> FileJson (PDict data)) ->
  startup d
  = Some {| shared := {| tokens := []; map_ref := PNone |};
            files := d;
            log := [] |}.
Proof.
  intros Ht Hm. unfold startup.
  rewrite (load_saved_tokens_no_object d Ht). simpl. unfold load_saved_map.
  destruct (map_save_file d) as [| | |v]; try reflexivity.
  destruct v as [| | | | |data]; try reflexivity.
  elim (Hm data). reflexivity.
Qed.

(** X9 at work: both records are corrupt. *)
Lemma startup_without_records_witness :
  startup {| maps_dir := []; map_save_file := FileGarbage;
             tokens_save_file := FileGarbage |}
  = Some {| shared := {| tokens := []; map_ref := PNone |};
            files := {| maps_dir := []; map_save_file := FileGarbage;
                        tokens_save_file := FileGarbage |};
            log := [] |}.
Proof.
  apply startup_without_records; intros data; discriminate.
Defined.

(** X10. A restart restores the shared state when both records are in
    step with it: the server started on these files has the same token list
    and the same map. *)
Theorem restart_restores_shared_state (w : world) :
  persisted_tokens (files w) (tokens (shared w)) ->
  map_persisted w ->
  startup (files w)
  = Some {| shared := shared w; files := files w; log := [] |}.
Proof.
  unfold persisted_tokens, map_persisted, startup. intros Ht Hm.
  assert (Hload : load_saved_tokens (files w)
                  = PList (List.map PDict (tokens (shared w)))).
  { unfold load_saved_tokens. rewrite Ht. reflexivity. }
  rewrite Hload. simpl. rewrite as_token_list_map, Hm.
  destruct (shared w). reflexivity.
Qed.

(** X10 at work: a server holding [t1] and a goblin, no map. *)
Lemma restart_restores_shared_state_witness :
  startup (files (world_of [token_t1; goblin]))
  = Some (world_of [token_t1; goblin]).
Proof.
  apply (restart_restores_shared_state (world_of [token_t1; goblin]));
    reflexivity.
Defined.

(* ================================================================== *)
(** ** The map record *)

Lemma extract_keeps_records (e : env) (url : string) (w : world) :
  map_save_file (files (snd (extract_and_save_map_image e url w)))
  = map_save_file (files w)
  /\ tokens_save_file (files (snd (extract_and_save_map_image e url w)))
     = tokens_save_file (files w).
Proof.
  unfold extract_and_save_map_image. unfold_monad.
  destruct (negb (truthy (PStr url)) || negb (startswith url "data:image/"));
    [split; reflexivity|].
  destruct (split_once "," url) as [[header encoded]|]; [|split; reflexivity].
  destruct (nth_error (split_on ";" header) 0) as [before_semi|];
    [|split; reflexivity].
  destruct (nth_error (split_on ":" before_semi) 1) as [mime_type|];
    [|split; reflexivity].
  destruct (nth_error (split_on "/" mime_type) 1) as [extension|];
    [|split; reflexivity].
  destruct (b64decode e encoded); [|split; reflexivity].
  destruct (image_write e _); split; reflexivity.
Qed.

Lemma extract_result_path (e : env) (url : string) (w : world) (u : string) :
  fst (extract_and_save_map_image e url w) = Some u ->
  exists extension, u = "/maps/current_map." ++ extension.
Proof.
  intros Hu. destruct (extract_cases e url w) as [H | [[H _] | H]].
  - rewrite H in Hu. discriminate.
  - rewrite H in Hu. discriminate.
  - destruct H as [_ [_ [extension [_ [_ [_ [[Hr _] | [Hr _]]]]]]]];
      rewrite Hr in Hu; [|discriminate].
    injection Hu as <-. exists extension. reflexivity.
Qed.

Lemma save_map_write_spec (e : env) (u : string) (w : world) :
  save_map_write e u w
  = (map_write_ok e,
     {| shared := shared w;
        files :=
          set_map_save_file (files w)
            (record_after_write e (map_save_file (files w)) u);
        log := log w |}).
Proof.
  unfold save_map_write, record_after_write, map_write_ok. unfold_monad.
  destruct w as [s [dir mf tf] l]. destruct (map_write e); reflexivity.
Qed.

Lemma save_map_envelope (body : M bool) (w : world) :
  (ok <- body ;; record (SaveMap ok) ;; ret ok) w
  = (fst (body w),
     {| shared := shared (snd (body w));
        files := files (snd (body w));
        log := (log (snd (body w)) ++ [SaveMap (fst (body w))])%list |}).
Proof.
  unfold_monad. destruct (body w) as [ok w1]. reflexivity.
Qed.

(** What [save_map] does, by the value it is given: nothing for a value
    that is empty or no string; the write of the string itself; or, for an
    inline image, the extraction and then the write of the path. *)
Lemma save_map_cases (e : env) (v : pyval) (w : world) :
  (fst (save_map e v w) = false
   /\ files (snd (save_map e v w)) = files w
   /\ (truthy v = false \/ forall s, v <> PStr s))
  \/ (exists s,
        v = PStr s /\ s <> "" /\ startswith s "data:image/" = false
        /\ fst (save_map e v w) = map_write_ok e
        /\ files (snd (save_map e v w))
           = set_map_save_file (files w)
               (record_after_write e (map_save_file (files w)) s))
  \/ (exists s,
        v = PStr s /\ startswith s "data:image/" = true
        /\ ((fst (extract_and_save_map_image e s w) = None
             /\ fst (save_map e v w) = false
             /\ files (snd (save_map e v w))
                = files (snd (extract_and_save_map_image e s w)))
            \/ (exists extension,
                  fst (extract_and_save_map_image e s w)
                  = Some ("/maps/current_map." ++ extension)
                  /\ fst (save_map e v w) = map_write_ok e
                  /\ files (snd (save_map e v w))
                     = set_map_save_file
                         (files (snd (extract_and_save_map_image e s w)))
                         (record_after_write e (map_save_file (files w))
                            ("/maps/current_map." ++ extension))))).
Proof.
  unfold save_map. rewrite save_map_envelope. cbn [fst snd files].
  destruct (truthy v) eqn:Ht; cbn [negb].
  2:{ left. split; [reflexivity|]. split; [reflexivity|]. left. reflexivity. }
  destruct v as [|b|z|s|l|d];
    try (left; split; [reflexivity|]; split; [reflexivity|];
         right; intros s; discriminate).
  destruct (startswith s "data:image/") eqn:Hp.
  - right. right. exists s. split; [reflexivity|]. split; [exact Hp|].
    rewrite bind_apply.
    pose proof (extract_keeps_records e s w) as [Hmf _].
    destruct (fst (extract_and_save_map_image e s w)) as [u|] eqn:Hu.
    + right. destruct (extract_result_path e s w u Hu) as [extension ->].
      exists extension. split; [reflexivity|].
      replace (truthy (PStr ("/maps/current_map." ++ extension))) with true
        by reflexivity.
      rewrite save_map_write_spec. cbn [fst snd files]. rewrite Hmf.
      split; reflexivity.
    + left. split; [reflexivity|]. split; reflexivity.
  - right. left. exists s. split; [reflexivity|].
    split; [intros ->; discriminate Ht|]. split; [exact Hp|].
    rewrite save_map_write_spec. split; reflexivity.
Qed.

Lemma load_after_record_write (e : env) (d : disk) (u : string) :
  map_write_ok e = true -> u <> "" ->
  load_saved_map
    (set_map_save_file d (record_after_write e (map_save_file d) u))
  = PStr u.
Proof.
  unfold map_write_ok, record_after_write, load_saved_map.
  destruct (map_write e); simpl; try discriminate. intros _ Hne.
  apply String.eqb_neq in Hne. rewrite Hne. reflexivity.
Qed.

Lemma map_path_not_empty (extension : string) :
  "/maps/current_map." ++ extension <> "".
Proof.
  discriminate.
Qed.

(** X11. After a [save_map] that returned [True], [load_saved_map] returns
    a non-empty string that is no inline image: the string that was given
    when it was no inline image, and the path of the extracted file when it
    was one. *)
Theorem save_map_then_load (e : env) (v : pyval) (w w' : world) :
  save_map e v w = (true, w') ->
  exists s,
    load_saved_map (files w') = PStr s
    /\ s <> ""
    /\ startswith s "data:image/" = false
    /\ (forall s0, v = PStr s0 -> startswith s0 "data:image/" = false -> s = s0)
    /\ (forall s0, v = PStr s0 -> startswith s0 "data:image/" = true ->
        fst (extract_and_save_map_image e s0 w) = Some s).
Proof.
  intros Hsave.
  assert (Hfst : fst (save_map e v w) = true) by (rewrite Hsave; reflexivity).
  assert (Hsnd : snd (save_map e v w) = w') by (rewrite Hsave; reflexivity).
  subst w'.
  destruct (save_map_cases e v w) as [[Hf _] | [H | H]].
  - rewrite Hf in Hfst. discriminate.
  - destruct H as [s [-> [Hne [Hp [Hok Hfiles]]]]].
    rewrite Hfst in Hok. exists s. rewrite Hfiles.
    split; [apply load_after_record_write; auto|].
    split; [exact Hne|]. split; [exact Hp|]. split.
    + intros s0 Heq _. injection Heq as <-. reflexivity.
    + intros s0 Heq Hp0. injection Heq as <-. rewrite Hp in Hp0.
      discriminate.
  - destruct H as [s0 [-> [Hp [[_ [Hf _]] | [extension [Hx [Hok Hfiles]]]]]]].
    + rewrite Hf in Hfst. discriminate.
    + rewrite Hfst in Hok. exists ("/maps/current_map." ++ extension).
      rewrite Hfiles.
      pose proof (extract_keeps_records e s0 w) as [Hmf _].
      rewrite <- Hmf.
      split; [apply load_after_record_write;
              [auto | apply map_path_not_empty]|].
      split; [apply map_path_not_empty|]. split; [reflexivity|]. split.
      * intros s1 Heq Hp1. injection Heq as <-. rewrite Hp in Hp1.
        discriminate.
      * intros s1 Heq _. injection Heq as <-. exact Hx.
Qed.

(** X11 at work: a plain URL saved on an empty disk. *)
Lemma save_map_then_load_witness :
  exists s,
    load_saved_map
      (files (snd (save_map env_ok (PStr "https://host/x.png") (world_of []))))
    = PStr s
    /\ s = "https://host/x.png".
Proof.
  destruct (save_map_then_load env_ok (PStr "https://host/x.png")
              (world_of [])
              (snd (save_map env_ok (PStr "https://host/x.png") (world_of [])))
              eq_refl) as [s [Hload [_ [_ [Hsame _]]]]].
  exists s. split; [exact Hload|].
  apply (Hsame "https://host/x.png"); reflexivity.
Defined.

Lemma save_map_refusal (e : env) (v : pyval) (w : world) :
  truthy v = false \/ (forall s, v <> PStr s) ->
  fst (save_map e v w) = false /\ files (snd (save_map e v w)) = files w.
Proof.
  intros Hv.
  destruct (save_map_cases e v w) as [[Hf [Hfiles _]] | [H | H]].
  - split; assumption.
  - destruct H as [s [-> [Hne _]]]. destruct Hv as [Ht | Hno].
    + simpl in Ht. apply Bool.negb_false_iff, String.eqb_eq in Ht.
      contradiction.
    + elim (Hno s). reflexivity.
  - destruct H as [s [-> [Hp _]]]. destruct Hv as [Ht | Hno].
    + simpl in Ht. apply Bool.negb_false_iff, String.eqb_eq in Ht.
      subst s. discriminate Hp.
    + elim (Hno s). reflexivity.
Qed.

(** X12. [save_map] refuses a value that is empty (null, the empty string)
    or no string: it returns [False], writes no file, and the shared state
    stays as it was. *)
Theorem save_map_refuses (e : env) (v : pyval) (w : world) :
  truthy v = false \/ (forall s, v <> PStr s) ->
  save_map e v w
  = (false,
     {| shared := shared w;
        files := files w;
        log := (log w ++ [SaveMap false])%list |}).
Proof.
  intros Hv.
  destruct (save_map_spec e v w) as [Hs Hl].
  destruct (save_map_refusal e v w Hv) as [Hf Hfiles]. rewrite Hf in Hl.
  destruct (save_map e v w) as [ok [s d l]]. simpl in *. subst. reflexivity.
Qed.

(** X12 at work: [save_map(None)]. *)
Lemma save_map_refuses_witness :
  fst (save_map env_ok PNone (world_of [])) = false.
Proof.
  rewrite (save_map_refuses env_ok PNone (world_of []));
    [reflexivity | left; reflexivity].
Defined.

(* ================================================================== *)
(** ** Stored map images *)

Lemma string_app_assoc (a b c : string) : (a ++ b) ++ c = a ++ (b ++ c).
Proof.
  induction a as [|x a IH]; simpl; [reflexivity | rewrite IH; reflexivity].
Qed.

Lemma no_char_app (c : ascii) (a b : string) :
  no_char c (a ++ b) = no_char c a && no_char c b.
Proof.
  induction a as [|x a IH]; simpl; [reflexivity|].
  rewrite IH. apply Bool.andb_assoc.
Qed.

Lemma split_once_app (c : ascii) (a b : string) :
  no_char c a = true -> split_once c (a ++ String c b) = Some (a, b).
Proof.
  induction a as [|x a IH]; simpl; intros H.
  - rewrite Ascii.eqb_refl. reflexivity.
  - apply Bool.andb_true_iff in H. destruct H as [Hx Ha].
    apply Bool.negb_true_iff in Hx. rewrite Hx, (IH Ha). reflexivity.
Qed.

Lemma split_on_no_char (c : ascii) (a : string) :
  no_char c a = true -> split_on c a = [a].
Proof.
  induction a as [|x a IH]; simpl; intros H; [reflexivity|].
  apply Bool.andb_true_iff in H. destruct H as [Hx Ha].
  apply Bool.negb_true_iff in Hx. rewrite Hx, (IH Ha). reflexivity.
Qed.

Lemma split_on_app (c : ascii) (a b : string) :
  no_char c a = true -> split_on c (a ++ String c b) = a :: split_on c b.
Proof.
  induction a as [|x a IH]; simpl; intros H.
  - rewrite Ascii.eqb_refl. reflexivity.
  - apply Bool.andb_true_iff in H. destruct H as [Hx Ha].
    apply Bool.negb_true_iff in Hx. rewrite Hx, (IH Ha). reflexivity.
Qed.

(** The file name [extract_and_save_map_image] reads out of a data URL
    whose subtype holds none of the separators. *)
Lemma data_url_parts (subtype params payload : string) :
  no_char "/" subtype = true -> no_char ":" subtype = true ->
  no_char ";" subtype = true -> no_char "," subtype = true ->
  no_char "," params = true ->
  split_once "," (data_url subtype params payload)
  = Some ("data:image/" ++ subtype ++ ";" ++ params, payload)
  /\ nth_error (split_on ";" ("data:image/" ++ subtype ++ ";" ++ params)) 0
     = Some ("data:image/" ++ subtype)
  /\ nth_error (split_on ":" ("data:image/" ++ subtype)) 1
     = Some ("image/" ++ subtype)
  /\ nth_error (split_on "/" ("image/" ++ subtype)) 1 = Some subtype.
Proof.
  intros Hslash Hcolon Hsemi Hcomma Hparams. split; [|split; [|split]].
  - unfold data_url.
    replace ("data:image/" ++ subtype ++ ";" ++ params ++ "," ++ payload)
      with (("data:image/" ++ subtype ++ ";" ++ params) ++ String "," payload).
    + apply split_once_app.
      change ("data:image/" ++ subtype ++ ";" ++ params)
        with ("data:image/" ++ (subtype ++ (";" ++ params))).
      rewrite !no_char_app, Hcomma, Hparams. reflexivity.
    + rewrite !string_app_assoc. reflexivity.
  - replace ("data:image/" ++ subtype ++ ";" ++ params)
      with (("data:image/" ++ subtype) ++ String ";" params)
      by (rewrite !string_app_assoc; reflexivity).
    rewrite split_on_app; [reflexivity|].
    rewrite no_char_app, Hsemi. reflexivity.
  - change ("data:image/" ++ subtype)
      with ("data" ++ String ":" ("image/" ++ subtype)).
    rewrite split_on_app by reflexivity.
    rewrite split_on_no_char; [reflexivity|].
    rewrite no_char_app, Hcolon. reflexivity.
  - change ("image/" ++ subtype) with ("image" ++ String "/" subtype).
    rewrite split_on_app by reflexivity.
    rewrite split_on_no_char by exact Hslash. reflexivity.
Qed.

Lemma dir_lookup_dir_write_other (dir : list (string * list byte))
  (name n : string) (data : list byte) :
  name <> n ->
  dir_lookup (dir_write dir name data) n = dir_lookup dir n.
Proof.
  intros Hne. induction dir as [|[n0 c] dir IH]; simpl.
  - destruct (String.eqb name n) eqn:E; [|reflexivity].
    apply String.eqb_eq in E. contradiction.
  - destruct (String.eqb n0 name) eqn:E; simpl.
    + apply String.eqb_eq in E. subst n0.
      destruct (String.eqb name n) eqn:E'; [|reflexivity].
      apply String.eqb_eq in E'. contradiction.
    + destruct (String.eqb n0 n); [reflexivity | exact IH].
Qed.

Lemma dir_lookup_dir_remove_other (dir : list (string * list byte))
  (name n : string) :
  name <> n -> dir_lookup (dir_remove dir name) n = dir_lookup dir n.
Proof.
  intros Hne. unfold dir_remove. induction dir as [|[n0 c] dir IH]; simpl;
    [reflexivity|].
  destruct (String.eqb n0 name) eqn:E; simpl.
  - apply String.eqb_eq in E. subst n0.
    destruct (String.eqb name n) eqn:E'; [|exact IH].
    apply String.eqb_eq in E'. contradiction.
  - destruct (String.eqb n0 n); [reflexivity | exact IH].
Qed.

Lemma remove_loop_keeps_others (e : env) (ns : list string)
  (d : list (string * list byte)) (n : string) :
  startswith n "current_map." = false ->
  dir_lookup (List.fold_left (remove_step e) ns d) n = dir_lookup d n.
Proof.
  intros Hn. revert d. induction ns as [|m ns IH]; simpl; intros d;
    [reflexivity|].
  rewrite IH. unfold remove_step.
  destruct (startswith m "current_map.") eqn:Hm; [|reflexivity].
  destruct (remove_ok e m); [|reflexivity].
  apply dir_lookup_dir_remove_other. intros ->. rewrite Hm in Hn.
  discriminate.
Qed.

(** X13. A data URL [data:image/<subtype>;<params>,<payload>] whose
    subtype holds none of [/ : ; ,] and whose payload decodes is stored as
    [current_map.<subtype>], when the file can be written: the call returns
    [/maps/current_map.<subtype>], the file holds the decoded bytes, and
    the shared state, the two records and the log are as before. *)
Theorem extract_well_formed
  (e : env) (subtype params payload : string) (data : list byte) (w : world) :
  no_char "/" subtype = true -> no_char ":" subtype = true ->
  no_char ";" subtype = true -> no_char "," subtype = true ->
  no_char "," params = true ->
  b64decode e payload = Some data ->
  image_write e ("current_map." ++ subtype) = WriteOk ->
  extract_and_save_map_image e (data_url subtype params payload) w
  = (Some ("/maps/current_map." ++ subtype),
     {| shared := shared w;
        files :=
          set_maps_dir (files w)
            (dir_write (remove_old_maps e (maps_dir (files w)))
               ("current_map." ++ subtype) data);
        log := log w |})
  /\ dir_lookup
       (maps_dir
          (files
             (snd (extract_and_save_map_image e
                     (data_url subtype params payload) w))))
       ("current_map." ++ subtype)
     = Some data.
Proof.
  intros Hslash Hcolon Hsemi Hcomma Hparams Hdec Hwrite.
  destruct (data_url_parts subtype params payload
              Hslash Hcolon Hsemi Hcomma Hparams) as [H1 [H2 [H3 H4]]].
  assert (Hrun :
    extract_and_save_map_image e (data_url subtype params payload) w
    = (Some ("/maps/current_map." ++ subtype),
       {| shared := shared w;
          files :=
            set_maps_dir (files w)
              (dir_write (remove_old_maps e (maps_dir (files w)))
                 ("current_map." ++ subtype) data);
          log := log w |})).
  { unfold extract_and_save_map_image.
    replace (startswith (data_url subtype params payload) "data:image/")
      with true by (symmetry; apply (startswith_app "data:image/")).
    replace (truthy (PStr (data_url subtype params payload))) with true
      by reflexivity.
    cbn [negb orb]. rewrite H1, H2, H3, H4. cbv zeta. unfold_monad.
    rewrite Hdec, Hwrite. reflexivity. }
  split; [exact Hrun|]. rewrite Hrun. cbn [snd files maps_dir set_maps_dir].
  apply dir_lookup_dir_write_same.
Qed.

(** X13 at work: an SVG image with a character set parameter. *)
Lemma extract_well_formed_witness :
  fst (extract_and_save_map_image env_ok
         (data_url "svg+xml" "charset=utf-8;base64" "AAAA") world_with_jpg)
  = Some "/maps/current_map.svg+xml".
Proof.
  destruct (extract_well_formed env_ok "svg+xml" "charset=utf-8;base64" "AAAA"
              [x00; x00; x00] world_with_jpg
              eq_refl eq_refl eq_refl eq_refl eq_refl eq_refl eq_refl)
    as [Hrun _].
  rewrite Hrun. reflexivity.
Defined.

(** X14. Whatever it is given and however it ends,
    [extract_and_save_map_image] leaves alone every file of the images
    directory whose name does not start with [current_map.], and the map
    and token records, the shared state and the log. *)
Theorem extract_touches_map_images_only
  (e : env) (url : string) (w : world) (n : string) :
  startswith n "current_map." = false ->
  dir_lookup
    (maps_dir (files (snd (extract_and_save_map_image e url w)))) n
  = dir_lookup (maps_dir (files w)) n
  /\ map_save_file (files (snd (extract_and_save_map_image e url w)))
     = map_save_file (files w)
  /\ tokens_save_file (files (snd (extract_and_save_map_image e url w)))
     = tokens_save_file (files w)
  /\ shared (snd (extract_and_save_map_image e url w)) = shared w
  /\ log (snd (extract_and_save_map_image e url w)) = log w.
Proof.
  intros Hn.
  destruct (extract_keeps_records e url w) as [Hm Ht].
  destruct (extract_keeps_shared_and_log e url w) as [Hs Hl].
  split; [|auto].
  assert (Hnew : forall extension, "current_map." ++ extension <> n).
  { intros extension <-. rewrite startswith_app in Hn. discriminate. }
  destruct (extract_cases e url w) as [H | [[_ H] | H]].
  - rewrite H. reflexivity.
  - rewrite H. apply remove_loop_keeps_others, Hn.
  - destruct H as [_ [_ [extension [data [_ [_ [[_ H] | [_ [_ H]]]]]]]]];
      rewrite H, dir_lookup_dir_write_other by apply Hnew;
      apply remove_loop_keeps_others, Hn.
Qed.

(** X14 at work: a portrait kept next to the map image. *)
Lemma extract_touches_map_images_only_witness :
  dir_lookup
    (maps_dir
       (files
          (snd (extract_and_save_map_image env_ok "data:image/png;base64,AAAA"
                  {| shared := shared world_with_jpg;
                     files :=
                       set_maps_dir disk_empty
                         [("current_map.jpg", [x01]); ("hero.png", [x07])];
                     log := [] |})))) "hero.png"
  = Some [x07].
Proof.
  destruct (extract_touches_map_images_only env_ok
              "data:image/png;base64,AAAA"
              {| shared := shared world_with_jpg;
                 files :=
                   set_maps_dir disk_empty
                     [("current_map.jpg", [x01]); ("hero.png", [x07])];
                 log := [] |} "hero.png" eq_refl) as [Hkeep _].
  rewrite Hkeep. reflexivity.
Defined.

(* ================================================================== *)
(** ** [change_map] and the map record *)

(** [save_map] on a non-empty string that is no inline image. *)
Lemma save_map_plain (e : env) (s : string) (w : world) :
  s <> "" -> startswith s "data:image/" = false ->
  save_map e (PStr s) w
  = (map_write_ok e,
     {| shared := shared w;
        files :=
          set_map_save_file (files w)
            (record_after_write e (map_save_file (files w)) s);
        log := (log w ++ [SaveMap (map_write_ok e)])%list |}).
Proof.
  intros Hne Hp. destruct (save_map_spec e (PStr s) w) as [Hs Hl].
  destruct (save_map_cases e (PStr s) w) as [[_ [_ H]] | [H | H]].
  - exfalso. destruct H as [Ht | Hno].
    + simpl in Ht. apply Bool.negb_false_iff, String.eqb_eq in Ht.
      contradiction.
    + elim (Hno s). reflexivity.
  - destruct H as [s0 [Heq [_ [_ [Hf Hfiles]]]]]. injection Heq as <-.
    rewrite Hf in Hl.
    destruct (save_map e (PStr s) w) as [ok [sh d l]]. simpl in *. subst.
    reflexivity.
  - destruct H as [s0 [Heq [Hp0 _]]]. injection Heq as <-.
    rewrite Hp in Hp0. discriminate.
Qed.

Lemma change_map_inline_run
  (e : env) (sid : string) (data : dict) (w : world) (s : string) :
  dict_lookup data "map" = Some (PStr s) ->
  startswith s "data:image/" = true ->
  run (change_map e sid data) w
  = match fst (extract_and_save_map_image e s w) with
    | Some u =>
        {| shared := {| tokens := tokens (shared w); map_ref := PStr u |};
           files :=
             set_map_save_file (files (snd (extract_and_save_map_image e s w)))
               (record_after_write e (map_save_file (files w)) u);
           log :=
             (log w ++
              [SaveMap (map_write_ok e);
               Emit "map_changed"
                 (PDict
                    [("map",
                      PStr ("http://" ++ get_local_ip e ++ ":" ++ str_of_Z PORT
                            ++ u ++ "?t=" ++ str_of_Z (now e)))])
                 ToAll])%list |}
    | None => snd (extract_and_save_map_image e s w)
    end.
Proof.
  intros Hmap Hp.
  assert (Hget : dict_get data "map" = PStr s).
  { unfold dict_get, dict_get_default. rewrite Hmap. reflexivity. }
  assert (Htrue : truthy (PStr s) = true).
  { destruct s; [discriminate Hp | reflexivity]. }
  unfold change_map. cbv zeta. rewrite Hget, Htrue, Hp.
  unfold run. rewrite bind_apply.
  destruct (extract_keeps_shared_and_log e s w) as [Hs Hl].
  destruct (extract_keeps_records e s w) as [Hm _].
  destruct (fst (extract_and_save_map_image e s w)) as [u|] eqn:Hu;
    [|reflexivity].
  destruct (extract_result_path e s w u Hu) as [extension ->].
  replace (truthy (PStr ("/maps/current_map." ++ extension))) with true
    by reflexivity.
  rewrite !bind_apply.
  rewrite save_map_plain; [|apply map_path_not_empty | reflexivity].
  unfold_monad. cbn [fst snd shared files log tokens map_ref].
  rewrite Hs, Hl, Hm. rewrite <- List.app_assoc. reflexivity.
Qed.

(** X15. [change_map] with an inline image. When the image is stored, the
    map of the shared state becomes the relative path of the file, the path
    goes into the map record, and one [map_changed] goes to all sessions
    with the absolute URL [http://<server address>:9000<path>?t=<clock>].
    When it is not stored, the shared state is left as it was and nothing
    is logged: no [save_map], no broadcast. The tokens stay in both cases. *)
Theorem change_map_inline_image
  (e : env) (sid : string) (data : dict) (w : world) (s : string) :
  dict_lookup data "map" = Some (PStr s) ->
  startswith s "data:image/" = true ->
  (forall u,
     fst (extract_and_save_map_image e s w) = Some u ->
     shared (run (change_map e sid data) w)
     = {| tokens := tokens (shared w); map_ref := PStr u |}
     /\ map_save_file (files (run (change_map e sid data) w))
        = record_after_write e (map_save_file (files w)) u
     /\ done_by (change_map e sid data) w
        = [SaveMap (map_write_ok e);
           Emit "map_changed"
             (PDict
                [("map",
                  PStr ("http://" ++ local_ip e ++ ":9000" ++ u
                        ++ "?t=" ++ str_of_Z (now e)))])
             ToAll])
  /\ (fst (extract_and_save_map_image e s w) = None ->
      shared (run (change_map e sid data) w) = shared w
      /\ map_save_file (files (run (change_map e sid data) w))
         = map_save_file (files w)
      /\ done_by (change_map e sid data) w = []).
Proof.
  intros Hmap Hp.
  pose proof (change_map_inline_run e sid data w s Hmap Hp) as Hrun.
  destruct (extract_keeps_shared_and_log e s w) as [Hs Hl].
  destruct (extract_keeps_records e s w) as [Hm _].
  split.
  - intros u Hu. rewrite Hu in Hrun.
    split; [rewrite Hrun; reflexivity|].
    split; [rewrite Hrun; reflexivity|].
    apply done_by_log. rewrite Hrun. reflexivity.
  - intros Hu. rewrite Hu in Hrun. rewrite Hrun.
    split; [exact Hs|]. split; [exact Hm|].
    apply done_by_log. rewrite Hrun, Hl, List.app_nil_r. reflexivity.
Qed.

(** X15 at work: a PNG image sent to a server that shows a JPEG one. *)
Lemma change_map_inline_image_witness :
  done_by (change_map env_ok "A" change_to_png) world_with_jpg
  = [SaveMap true;
     Emit "map_changed"
       (PDict
          [("map",
            PStr "http://192.168.1.5:9000/maps/current_map.png?t=1700000000")])
       ToAll].
Proof.
  destruct (change_map_inline_image env_ok "A" change_to_png world_with_jpg
              "data:image/png;base64,AAAA" eq_refl eq_refl) as [Hok _].
  destruct (Hok "/maps/current_map.png" eq_refl) as [_ [_ Hlog]].
  exact Hlog.
Defined.

(** X16. [change_map] with a non-empty string keeps the map record in step
    with the shared state when the record can be written: if a restart
    would have shown the current map before, it shows the current map
    after, be the string a plain reference or an inline image, stored or
    not. *)
Theorem change_map_keeps_map_persisted
  (e : env) (sid : string) (data : dict) (w : world) (s : string) :
  dict_lookup data "map" = Some (PStr s) ->
  s <> "" ->
  map_write e = WriteOk ->
  map_persisted w ->
  map_persisted (run (change_map e sid data) w).
Proof.
  intros Hmap Hne Hok Hper. unfold map_persisted in *.
  assert (Hwok : map_write_ok e = true).
  { unfold map_write_ok. rewrite Hok. reflexivity. }
  destruct (startswith s "data:image/") eqn:Hp.
  - rewrite (change_map_inline_run e sid data w s Hmap Hp).
    destruct (extract_keeps_shared_and_log e s w) as [Hs _].
    destruct (extract_keeps_records e s w) as [Hm _].
    destruct (fst (extract_and_save_map_image e s w)) as [u|] eqn:Hu.
    + destruct (extract_result_path e s w u Hu) as [extension ->].
      cbn [files shared map_ref]. rewrite <- Hm.
      apply load_after_record_write;
        [exact Hwok | apply map_path_not_empty].
    + rewrite Hs. unfold load_saved_map in *. rewrite Hm. exact Hper.
  - assert (Hget : dict_get data "map" = PStr s).
    { unfold dict_get, dict_get_default. rewrite Hmap. reflexivity. }
    assert (Htrue : truthy (PStr s) = true).
    { simpl. apply Bool.negb_true_iff, String.eqb_neq, Hne. }
    unfold change_map. cbv zeta. rewrite Hget, Htrue, Hp.
    unfold run. rewrite !bind_apply.
    rewrite save_map_plain by assumption.
    unfold_monad. cbn [fst snd shared files log tokens map_ref].
    apply load_after_record_write; assumption.
Qed.

(** X16 at work: a plain URL on a server without a saved map. *)
Lemma change_map_keeps_map_persisted_witness :
  map_persisted (run (change_map env_ok "A" change_to_url) (world_of [])).
Proof.
  apply (change_map_keeps_map_persisted env_ok "A" change_to_url (world_of [])
           "https://host/x.png"); [reflexivity | discriminate | | ]; reflexivity.
Defined.

(* ================================================================== *)
(** ** Token handlers: what changes and what can be looked up after *)

Lemma nth_error_list_assign_other {A : Type} (l : list A) (i j : nat) (x : A) :
  i <> j -> nth_error (list_assign l i x) j = nth_error l j.
Proof.
  revert i j. induction l as [|y l IH]; intros i j Hne; [reflexivity|].
  destruct i as [|i], j as [|j]; simpl; try reflexivity.
  - contradiction.
  - apply IH. lia.
Qed.

Lemma length_list_assign {A : Type} (l : list A) (i : nat) (x : A) :
  List.length (list_assign l i x) = List.length l.
Proof.
  revert i. induction l as [|y l IH]; intros i; [reflexivity|].
  destruct i as [|i]; simpl; [reflexivity | rewrite IH; reflexivity].
Qed.

Lemma found_token_find (ts : list dict) (id : pyval) (i : nat) (t : dict) :
  found_token ts id = Some (i, t) ->
  find_token_from 0 ts id = Some (i, t) /\ truthy (PDict t) = true.
Proof.
  unfold found_token, find_token. intros H.
  destruct (find_token_from 0 ts id) as [[j u]|]; [|discriminate].
  destruct (truthy (PDict u)) eqn:E; [|discriminate].
  injection H as <- <-. split; [reflexivity | exact E].
Qed.

(** A token that was found stays the token that is found when it is
    replaced by a non-empty token with an equal identifier. *)
Lemma found_token_assign (ts : list dict) (id : pyval) (i : nat) (t t' : dict) :
  found_token ts id = Some (i, t) ->
  py_eq (token_id t') id = true ->
  truthy (PDict t') = true ->
  found_token (list_assign ts i t') id = Some (i, t').
Proof.
  intros Hf He Ht. apply found_token_find in Hf. destruct Hf as [Hf _].
  pose proof (find_token_from_assign 0 ts id i t t' Hf He) as Ha.
  rewrite Nat.sub_0_r in Ha. unfold found_token, find_token.
  rewrite Ha, Ht. reflexivity.
Qed.

Lemma dict_set_not_empty (d : dict) (k : string) (v : pyval) :
  truthy (PDict (dict_set d k v)) = true.
Proof.
  destruct d as [|[k0 v0] d]; simpl; [reflexivity|].
  destruct (String.eqb k0 k); reflexivity.
Qed.

(** X17. [move_token] for the identifier of a stored token changes the [x]
    and [y] of the first token with that identifier and nothing else: the
    list keeps its length, the other tokens and the other fields of the
    token stay, and the token found under the identifier afterwards has
    the [x] and [y] of the payload (null for a coordinate the payload
    lacks). *)
Theorem move_token_known_id
  (e : env) (sid : string) (data : dict) (w : world) (i : nat) (t : dict) :
  found_token (tokens (shared w)) (dict_get data "id") = Some (i, t) ->
  exists t',
    found_token (tokens (shared (run (move_token e sid data) w)))
      (dict_get data "id") = Some (i, t')
    /\ dict_lookup t' "x" = Some (dict_get data "x")
    /\ dict_lookup t' "y" = Some (dict_get data "y")
    /\ (forall k, k <> "x" -> k <> "y" -> dict_lookup t' k = dict_lookup t k)
    /\ (forall j, j <> i ->
          nth_error (tokens (shared (run (move_token e sid data) w))) j
          = nth_error (tokens (shared w)) j)
    /\ List.length (tokens (shared (run (move_token e sid data) w)))
       = List.length (tokens (shared w)).
Proof.
  intros Hf. exists (moved_token t data).
  rewrite move_token_run. cbv zeta. rewrite Hf. cbn [shared tokens].
  pose proof (found_token_some _ _ _ _ Hf) as [_ He].
  split; [|split; [|split; [|split; [|split]]]].
  - apply (found_token_assign _ _ _ t); [exact Hf | |].
    + unfold token_id, moved_token in *.
      rewrite !dict_get_set_other by discriminate. exact He.
    + apply dict_set_not_empty.
  - unfold moved_token. rewrite dict_lookup_set_other by discriminate.
    apply dict_lookup_set_same.
  - apply dict_lookup_set_same.
  - intros k Hx Hy. unfold moved_token.
    rewrite !dict_lookup_set_other by congruence. reflexivity.
  - intros j Hj. apply nth_error_list_assign_other. congruence.
  - apply length_list_assign.
Qed.

(** X17 at work: [t1] moved to (3, 4) next to a goblin. *)
Lemma move_token_known_id_witness :
  exists t',
    found_token
      (tokens (shared (run (move_token env_ok "A" move_t1)
                         (world_of [goblin; token_t1]))))
      (PStr "t1") = Some (1, t')
    /\ dict_lookup t' "x" = Some (PInt 3).
Proof.
  destruct (move_token_known_id env_ok "A" move_t1
              (world_of [goblin; token_t1]) 1 token_t1 eq_refl)
    as [t' [Hf [Hx _]]].
  exists t'. split; [exact Hf | exact Hx].
Defined.

Lemma find_token_from_app (k : nat) (ts l : list dict) (id : pyval) :
  find_token_from k ts id = None ->
  find_token_from k (ts ++ l)%list id
  = find_token_from (k + List.length ts) l id.
Proof.
  revert k. induction ts as [|t ts IH]; simpl; intros k H.
  - rewrite Nat.add_0_r. reflexivity.
  - destruct (py_eq (dict_get t "id") id); [discriminate|].
    rewrite (IH _ H). f_equal. lia.
Qed.

(** No token is found for an identifier that is one: none has it. *)
Lemma found_token_none_find (ts : list dict) (id : pyval) :
  truthy id = true ->
  found_token ts id = None ->
  find_token_from 0 ts id = None.
Proof.
  unfold found_token, find_token. intros Hid H.
  destruct (find_token_from 0 ts id) as [[j u]|] eqn:E; [|reflexivity].
  destruct u as [|kv u]; [|discriminate].
  apply find_token_from_some in E. destruct E as [_ [_ E]].
  apply py_eq_None_l in E. subst id. discriminate.
Qed.

Lemma found_token_snoc (ts : list dict) (data : dict) :
  truthy (dict_get data "id") = true ->
  is_scalar (dict_get data "id") = true ->
  found_token ts (dict_get data "id") = None ->
  found_token (ts ++ [data])%list (dict_get data "id")
  = Some (List.length ts, data).
Proof.
  intros Hid Hs Hnone. unfold found_token, find_token.
  rewrite (find_token_from_app 0 ts [data] _
             (found_token_none_find ts _ Hid Hnone)).
  simpl. rewrite (py_eq_scalar_refl _ Hs).
  destruct data; [discriminate Hid | reflexivity].
Qed.

(** X18. After an [add_token] whose payload has distinct keys and an [id]
    that is a non-empty scalar, the token found under that [id] carries
    every field of the payload with the payload's value; the list has
    grown by one token when the [id] was new and has kept its length when
    it was known. *)
Theorem add_token_then_find
  (e : env) (sid : string) (data : dict) (w : world) :
  dict_wf data ->
  is_scalar (dict_get data "id") = true ->
  truthy (dict_get data "id") = true ->
  exists i t',
    found_token (tokens (shared (run (add_token e sid data) w)))
      (dict_get data "id") = Some (i, t')
    /\ (forall k v, dict_lookup data k = Some v -> dict_lookup t' k = Some v)
    /\ List.length (tokens (shared (run (add_token e sid data) w)))
       = match found_token (tokens (shared w)) (dict_get data "id") with
         | Some _ => List.length (tokens (shared w))
         | None => S (List.length (tokens (shared w)))
         end.
Proof.
  intros Hwf Hs Hid. rewrite add_token_run. cbv zeta. rewrite Hid.
  assert (Hne : truthy (PDict data) = true)
    by (destruct data; [discriminate Hid | reflexivity]).
  rewrite Hne. cbn [negb orb].
  destruct (found_token (tokens (shared w)) (dict_get data "id"))
    as [[i t]|] eqn:Hf; cbn [shared tokens].
  - exists i, (merge_fields t data).
    destruct (merged_token_id data t Hwf Hid) as [Hmid Hmtrue].
    split; [|split].
    + apply (found_token_assign _ _ _ t); [exact Hf | | exact Hmtrue].
      rewrite Hmid. apply py_eq_scalar_refl, Hs.
    + intros k v. apply merge_fields_lookup, Hwf.
    + apply length_list_assign.
  - exists (List.length (tokens (shared w))), data.
    split; [apply found_token_snoc; assumption|].
    split; [auto|]. rewrite List.length_app. simpl. lia.
Qed.

(** X18 at work: the update of [t1] with a new field. *)
Lemma add_token_then_find_witness :
  exists i t',
    found_token
      (tokens (shared (run (add_token env_ok "A" add_t1_hp)
                         (world_of [token_t1]))))
      (PStr "t1") = Some (i, t')
    /\ dict_lookup t' "hp" = Some (PInt 10).
Proof.
  assert (Hwf : dict_wf add_t1_hp).
  { unfold dict_wf. simpl.
    repeat (constructor; [simpl; intuition discriminate|]). constructor. }
  destruct (add_token_then_find env_ok "A" add_t1_hp (world_of [token_t1])
              Hwf eq_refl eq_refl) as [i [t' [Hf [Hfields _]]]].
  exists i, t'. split; [exact Hf|]. apply Hfields. reflexivity.
Defined.

(** X19. An [add_token] for a new identifier (a non-empty scalar) followed
    by a [remove_token] for the same identifier leaves the token list as
    it was before the two. *)
Theorem add_then_remove_token
  (e e' : env) (sid sid' : string) (data : dict) (w : world) :
  truthy (dict_get data "id") = true ->
  is_scalar (dict_get data "id") = true ->
  found_token (tokens (shared w)) (dict_get data "id") = None ->
  tokens (shared (run (remove_token e' sid' [("id", dict_get data "id")])
                    (run (add_token e sid data) w)))
  = tokens (shared w).
Proof.
  intros Hid Hs Hnone.
  rewrite remove_token_run, add_token_run. cbv zeta. rewrite Hid, Hnone.
  assert (Hne : truthy (PDict data) = true)
    by (destruct data; [discriminate Hid | reflexivity]).
  rewrite Hne. cbn [negb orb shared tokens].
  assert (Hfilter :
    List.filter
      (fun t => negb (py_eq (dict_get t "id")
                        (dict_get [("id", dict_get data "id")] "id")))
      (tokens (shared w) ++ [data])
    = tokens (shared w)).
  { change (dict_get [("id", dict_get data "id")] "id")
      with (dict_get data "id").
    rewrite List.filter_app. simpl.
    rewrite (py_eq_scalar_refl _ Hs). simpl. rewrite List.app_nil_r.
    apply filter_keeps_all. intros t Hin.
    pose proof (find_token_from_none _ _ _
                  (found_token_none_find _ _ Hid Hnone) t Hin) as Ht.
    unfold token_id in Ht. rewrite Ht. reflexivity. }
  rewrite Hfilter. destruct (Nat.ltb _ _); reflexivity.
Qed.

(** X19 at work: [t9] added to a server holding [t1], and removed. *)
Lemma add_then_remove_token_witness :
  tokens (shared (run (remove_token env_ok "B" [("id", PStr "t9")])
                    (run (add_token env_ok "A" move_t9) (world_of [token_t1]))))
  = [token_t1].
Proof.
  apply (add_then_remove_token env_ok env_ok "A" "B" move_t9
           (world_of [token_t1])); reflexivity.
Defined.

(** X20. After a [remove_token] no token with the identifier of the
    payload is left, however many there were; every token with another
    identifier is still in the list, and the list has not grown. *)
Theorem remove_token_removes_all
  (e : env) (sid : string) (data : dict) (w : world) :
  find_token (tokens (shared (run (remove_token e sid data) w)))
    (dict_get data "id") = None
  /\ (forall t, In t (tokens (shared w)) ->
                py_eq (token_id t) (dict_get data "id") = false ->
                In t (tokens (shared (run (remove_token e sid data) w))))
  /\ (forall t, In t (tokens (shared (run (remove_token e sid data) w))) ->
                In t (tokens (shared w))
                /\ py_eq (token_id t) (dict_get data "id") = false)
  /\ List.length (tokens (shared (run (remove_token e sid data) w)))
     <= List.length (tokens (shared w)).
Proof.
  rewrite remove_token_run. cbv zeta.
  set (kept := List.filter _ (tokens (shared w))).
  assert (Hts : tokens (shared
                  (if Nat.ltb (List.length kept) (List.length (tokens (shared w)))
                   then
                     {| shared := {| tokens := kept;
                                     map_ref := map_ref (shared w) |};
                        files := files_after_save e (files w) kept;
                        log := (log w ++
                                [Emit "token_removed" (PDict data) (SkipSid sid);
                                 SaveTokens (tokens_write_ok e)])%list |}
                   else
                     {| shared := {| tokens := kept;
                                     map_ref := map_ref (shared w) |};
                        files := files w;
                        log := log w |})) = kept)
    by (destruct (Nat.ltb _ _); reflexivity).
  rewrite Hts.
  assert (Hin : forall t, In t kept <->
                  In t (tokens (shared w))
                  /\ py_eq (token_id t) (dict_get data "id") = false).
  { intros t. subst kept. rewrite List.filter_In. unfold token_id.
    rewrite Bool.negb_true_iff. reflexivity. }
  split; [|split; [|split]].
  - apply find_token_from_unknown. intros t Ht. apply Hin, Ht.
  - intros t Ht He. apply Hin. split; assumption.
  - intros t Ht. apply Hin, Ht.
  - apply List.filter_length_le.
Qed.

(** X20 at work: two tokens with the same [id] removed, a goblin kept. *)
Lemma remove_token_removes_all_witness :
  find_token
    (tokens (shared (run (remove_token env_ok "A" [("id", PStr "t1")])
                       (world_of [token_t1; goblin; update_t1]))))
    (PStr "t1") = None
  /\ In goblin
       (tokens (shared (run (remove_token env_ok "A" [("id", PStr "t1")])
                          (world_of [token_t1; goblin; update_t1])))).
Proof.
  destruct (remove_token_removes_all env_ok "A" [("id", PStr "t1")]
              (world_of [token_t1; goblin; update_t1]))
    as [Hgone [Hkept _]].
  split; [exact Hgone|].
  apply Hkept; [right; left; reflexivity | reflexivity].
Defined.

(* ================================================================== *)
(** ** [request_initial_state]: identifiers for all *)

Lemma backfill_id_has_id (e : env) (n : nat) (t : dict) :
  truthy (token_id (backfill_id e n t)) = true.
Proof.
  unfold backfill_id, token_id.
  destruct (truthy (dict_get t "id")) eqn:E; simpl; [exact E|].
  unfold dict_get, dict_get_default. rewrite dict_lookup_set_same.
  reflexivity.
Qed.

Lemma backfill_id_fixed (e : env) (n : nat) (t : dict) :
  truthy (token_id t) = true -> backfill_id e n t = t.
Proof.
  unfold backfill_id, token_id. intros ->. reflexivity.
Qed.

Lemma map_backfill_fixed (e : env) (n : nat) (ts : list dict) :
  all_have_id ts = true -> List.map (backfill_id e n) ts = ts.
Proof.
  unfold all_have_id. induction ts as [|t ts IH]; simpl; intros H;
    [reflexivity|].
  apply Bool.andb_true_iff in H. destruct H as [Ht Hts].
  rewrite (backfill_id_fixed e n t Ht), (IH Hts). reflexivity.
Qed.

(** X21. After a [request_initial_state] every token of the shared state
    has an identifier, and so has every token of the reply; a second
    [request_initial_state], from any session and whatever the hash
    function has become, changes no token. *)
Theorem request_initial_state_names_all
  (e e' : env) (sid sid' : string) (w : world) :
  all_have_id (tokens (shared (run (request_initial_state e sid) w))) = true
  /\ (exists m,
        done_by (request_initial_state e sid) w
        = [Emit "initial_state"
             (PDict
                [("tokens",
                  PList (List.map PDict
                           (tokens (shared (run (request_initial_state e sid)
                                              w)))));
                 ("map", m)])
             (ToSid sid)])
  /\ tokens (shared (run (request_initial_state e' sid')
                       (run (request_initial_state e sid) w)))
     = tokens (shared (run (request_initial_state e sid) w)).
Proof.
  assert (Hall :
    all_have_id (tokens (shared (run (request_initial_state e sid) w)))
    = true).
  { rewrite request_initial_state_run. cbv zeta. cbn [shared tokens].
    unfold all_have_id. rewrite List.forallb_forall. intros t Hin.
    apply List.in_map_iff in Hin. destruct Hin as [t0 [<- _]].
    apply backfill_id_has_id. }
  split; [exact Hall|]. split.
  - eexists. apply done_by_log. rewrite request_initial_state_run.
    cbv zeta. cbn [log shared tokens]. reflexivity.
  - rewrite (request_initial_state_run e' sid'). cbv zeta.
    cbn [shared tokens]. apply map_backfill_fixed, Hall.
Qed.

(* ================================================================== *)
(** ** What an event leaves alone *)

Lemma files_after_save_frame (e : env) (d : disk) (ts : list dict) :
  maps_dir (files_after_save e d ts) = maps_dir d
  /\ map_save_file (files_after_save e d ts) = map_save_file d.
Proof.
  unfold files_after_save. destruct (tokens_write e); split; reflexivity.
Qed.

(** The files after [save_map]: images and token record. *)
Lemma save_map_frame (e : env) (v : pyval) (w : world) :
  tokens_save_file (files (snd (save_map e v w))) = tokens_save_file (files w)
  /\ ((forall s, v = PStr s -> startswith s "data:image/" = false) ->
      maps_dir (files (snd (save_map e v w))) = maps_dir (files w)).
Proof.
  destruct (save_map_cases e v w) as [[_ [Hfiles _]] | [H | H]].
  - rewrite Hfiles. split; reflexivity.
  - destruct H as [s [_ [_ [_ [_ Hfiles]]]]]. rewrite Hfiles.
    split; reflexivity.
  - destruct H as [s [-> [Hp H]]].
    destruct (extract_keeps_records e s w) as [_ Ht].
    split.
    + destruct H as [[_ [_ Hfiles]] | [extension [_ [_ Hfiles]]]];
        rewrite Hfiles; exact Ht.
    + intros Hno. rewrite (Hno s eq_refl) in Hp. discriminate.
Qed.

(** [change_map] on a [map] value that is no inline image: nothing at all
    for a value that is true and no string, the direct path otherwise. *)
Lemma change_map_direct_run
  (e : env) (sid : string) (data : dict) (w : world) :
  (forall s, dict_get data "map" = PStr s -> startswith s "data:image/" = false) ->
  run (change_map e sid data) w = w
  \/ (let v := dict_get data "map" in
      let w1 := {| shared := {| tokens := tokens (shared w); map_ref := v |};
                   files := files w; log := log w |} in
      (truthy v = false \/ exists s, v = PStr s)
      /\ shared (run (change_map e sid data) w) = shared w1
      /\ files (run (change_map e sid data) w) = files (snd (save_map e v w1))).
Proof.
  intros Hno. cbv zeta.
  assert (Hdirect : forall v,
    let w1 := {| shared := {| tokens := tokens (shared w); map_ref := v |};
                 files := files w; log := log w |} in
    forall p,
    shared (snd ((set_map v ;; save_map e v ;;
                  sio_emit "map_changed" p ToAll) w)) = shared w1
    /\ files (snd ((set_map v ;; save_map e v ;;
                    sio_emit "map_changed" p ToAll) w))
       = files (snd (save_map e v w1))).
  { intros v w1 p. rewrite !bind_apply.
    change (snd (set_map v w)) with w1.
    destruct (save_map_spec e v w1) as [Hs _].
    unfold sio_emit, record. cbn [fst snd shared files]. auto. }
  unfold change_map, run. cbv zeta.
  destruct (truthy (dict_get data "map")) eqn:Ht.
  - destruct (dict_get data "map") as [|b|z|s|l|d] eqn:Hv;
      try (left; reflexivity).
    rewrite (Hno s eq_refl). right.
    split; [right; exists s; reflexivity|]. apply Hdirect.
  - right. split; [left; reflexivity|]. apply Hdirect.
Qed.

Lemma dict_get_str_lookup (d : dict) (k s : string) :
  dict_get d k = PStr s -> dict_lookup d k = Some (PStr s).
Proof.
  unfold dict_get, dict_get_default.
  destruct (dict_lookup d k); [intros ->; reflexivity | discriminate].
Qed.

(** A [map] value is an inline image or it is not. *)
Lemma map_value_cases (data : dict) :
  (exists s, dict_lookup data "map" = Some (PStr s)
             /\ startswith s "data:image/" = true)
  \/ (forall s, dict_get data "map" = PStr s ->
                startswith s "data:image/" = false).
Proof.
  destruct (dict_get data "map") as [|b|z|s|l|d] eqn:Hv;
    try (right; intros s0; discriminate).
  destruct (startswith s "data:image/") eqn:Hp.
  - left. exists s. split; [apply dict_get_str_lookup, Hv | exact Hp].
  - right. intros s0 Heq. injection Heq as <-. exact Hp.
Qed.

Lemma change_map_keeps_tokens
  (e : env) (sid : string) (data : dict) (w : world) :
  tokens (shared (run (change_map e sid data) w)) = tokens (shared w)
  /\ tokens_save_file (files (run (change_map e sid data) w))
     = tokens_save_file (files w).
Proof.
  destruct (map_value_cases data) as [[s [Hv Hp]] | Hno].
  - rewrite (change_map_inline_run e sid data w s Hv Hp).
    destruct (extract_keeps_shared_and_log e s w) as [Hs _].
    destruct (extract_keeps_records e s w) as [_ Ht].
    destruct (fst (extract_and_save_map_image e s w)).
    + split; [reflexivity | exact Ht].
    + rewrite Hs. split; [reflexivity | exact Ht].
  - destruct (change_map_direct_run e sid data w Hno) as [Hw | H].
    + rewrite Hw. split; reflexivity.
    + cbv zeta in H. destruct H as [_ [Hs Hf]]. rewrite Hs, Hf.
      split; [reflexivity|].
      match goal with |- context [save_map e ?v ?w1] =>
        destruct (save_map_frame e v w1) as [Ht _] end.
      exact Ht.
Qed.

Lemma request_current_map_keeps (e : env) (sid : string) (w : world) :
  shared (run (request_current_map e sid) w) = shared w
  /\ files (run (request_current_map e sid) w) = files w.
Proof.
  unfold request_current_map. unfold_monad.
  destruct w as [[ts m] d l]. simpl.
  destruct (truthy m); [|split; reflexivity].
  destruct m; try (split; reflexivity).
  destruct (negb _); split; reflexivity.
Qed.

Lemma non_map_event_frame (e : env) (sid : string) (ev : event) (w : world) :
  map_event ev = false ->
  map_ref (shared (run (handle e sid ev) w)) = map_ref (shared w)
  /\ map_save_file (files (run (handle e sid ev) w)) = map_save_file (files w)
  /\ maps_dir (files (run (handle e sid ev) w)) = maps_dir (files w).
Proof.
  intros Hev. destruct ev as [| |data|data|data|data| |];
    try discriminate Hev; cbn [handle].
  - repeat split.
  - rewrite request_initial_state_run. repeat split.
  - rewrite move_token_run. cbv zeta. cbn [shared files map_ref].
    match goal with |- context [files_after_save e (files w) ?ts] =>
      destruct (files_after_save_frame e (files w) ts) as [Hd Hm] end.
    auto.
  - rewrite add_token_run. cbv zeta.
    destruct (negb (truthy (PDict data)) || negb (truthy (dict_get data "id")));
      [repeat split|].
    destruct (found_token _ _) as [[i t]|]; cbn [shared files map_ref];
      [repeat split|].
    destruct (files_after_save_frame e (files w)
                (tokens (shared w) ++ [data])%list) as [Hd Hm]. auto.
  - rewrite remove_token_run. cbv zeta.
    destruct (Nat.ltb _ _); cbn [shared files map_ref]; [|repeat split].
    match goal with |- context [files_after_save e (files w) ?ts] =>
      destruct (files_after_save_frame e (files w) ts) as [Hd Hm] end.
    auto.
  - destruct (request_current_map_keeps e sid w) as [Hs Hf].
    rewrite Hs, Hf. repeat split.
  - rewrite clear_all_tokens_run. cbn [shared files map_ref].
    destruct (files_after_save_frame e (files w) []) as [Hd Hm]. auto.
Qed.

Lemma non_token_event_frame (e : env) (sid : string) (ev : event) (w : world) :
  token_event ev = false ->
  tokens (shared (run (handle e sid ev) w)) = tokens (shared w)
  /\ tokens_save_file (files (run (handle e sid ev) w))
     = tokens_save_file (files w).
Proof.
  intros Hev. destruct ev as [| |data|data|data|data| |];
    try discriminate Hev; cbn [handle].
  - split; reflexivity.
  - apply change_map_keeps_tokens.
  - destruct (request_current_map_keeps e sid w) as [Hs Hf].
    rewrite Hs, Hf. split; reflexivity.
Qed.

(** X22. Token events leave the map alone and map events leave the tokens
    alone: an event other than [change_map] changes neither the map of the
    shared state, nor the map record, nor the images directory; an event
    that is no token event ([connect], [change_map],
    [request_current_map]) changes neither the token list nor the token
    record. *)
Theorem events_keep_to_their_part
  (e : env) (sid : string) (ev : event) (w : world) :
  (map_event ev = false ->
   map_ref (shared (run (handle e sid ev) w)) = map_ref (shared w)
   /\ map_save_file (files (run (handle e sid ev) w)) = map_save_file (files w)
   /\ maps_dir (files (run (handle e sid ev) w)) = maps_dir (files w))
  /\ (token_event ev = false ->
      tokens (shared (run (handle e sid ev) w)) = tokens (shared w)
      /\ tokens_save_file (files (run (handle e sid ev) w))
         = tokens_save_file (files w)).
Proof.
  split; [apply non_map_event_frame | apply non_token_event_frame].
Qed.

(** X22 at work: a move keeps the map, a map change keeps the tokens. *)
Lemma events_keep_to_their_part_witness :
  map_ref (shared (run (handle env_ok "A" (MoveToken move_t1)) world_with_map))
  = PStr "/maps/current_map.png"
  /\ tokens (shared (run (handle env_ok "A" (ChangeMap change_to_png))
                       (world_of [token_t1])))
     = [token_t1].
Proof.
  split.
  - destruct (events_keep_to_their_part env_ok "A" (MoveToken move_t1)
                world_with_map) as [Hmap _].
    destruct (Hmap eq_refl) as [Href _]. exact Href.
  - destruct (events_keep_to_their_part env_ok "A" (ChangeMap change_to_png)
                (world_of [token_t1])) as [_ Htok].
    destruct (Htok eq_refl) as [Hts _]. exact Hts.
Defined.

(* ================================================================== *)
(** ** What holds after any sequence of events *)

Lemma map_path_inline_free (extension : string) :
  inline_free (PStr ("/maps/current_map." ++ extension)) = true.
Proof.
  reflexivity.
Qed.

Lemma record_after_write_inline_free (e : env) (old : file_state) (u : string) :
  record_inline_free old = true ->
  inline_free (PStr u) = true ->
  record_inline_free (record_after_write e old u) = true.
Proof.
  intros Hold Hu. unfold record_after_write.
  destruct (map_write e); [exact Hu | exact Hold | reflexivity].
Qed.

(** [save_map] never writes an inline image into the map record. *)
Lemma save_map_record_inline_free (e : env) (v : pyval) (w : world) :
  record_inline_free (map_save_file (files w)) = true ->
  record_inline_free (map_save_file (files (snd (save_map e v w)))) = true.
Proof.
  intros Hold.
  destruct (save_map_cases e v w) as [[_ [Hfiles _]] | [H | H]].
  - rewrite Hfiles. exact Hold.
  - destruct H as [s [_ [_ [Hp [_ Hfiles]]]]]. rewrite Hfiles.
    apply record_after_write_inline_free; [exact Hold|].
    simpl. rewrite Hp. reflexivity.
  - destruct H as [s [_ [_ H]]].
    destruct (extract_keeps_records e s w) as [Hm _].
    destruct H as [[_ [_ Hfiles]] | [extension [_ [_ Hfiles]]]];
      rewrite Hfiles.
    + rewrite Hm. exact Hold.
    + apply record_after_write_inline_free;
        [exact Hold | apply map_path_inline_free].
Qed.

Lemma handle_keeps_no_inline_image
  (e : env) (sid : string) (ev : event) (w : world) :
  no_inline_image w = true ->
  no_inline_image (run (handle e sid ev) w) = true.
Proof.
  unfold no_inline_image. intros H.
  apply Bool.andb_true_iff in H. destruct H as [Href Hrec].
  destruct (map_event ev) eqn:Hev.
  2:{ destruct (non_map_event_frame e sid ev w Hev) as [Hr [Hm _]].
      rewrite Hr, Hm, Href, Hrec. reflexivity. }
  destruct ev as [| |data|data|data|data| |]; try discriminate Hev.
  cbn [handle].
  destruct (map_value_cases data) as [[s [Hv Hp]] | Hno].
  - rewrite (change_map_inline_run e sid data w s Hv Hp).
    destruct (extract_keeps_shared_and_log e s w) as [Hs _].
    destruct (extract_keeps_records e s w) as [Hm _].
    destruct (fst (extract_and_save_map_image e s w)) as [u|] eqn:Hu.
    + destruct (extract_result_path e s w u Hu) as [extension ->].
      cbn [shared files map_ref map_save_file set_map_save_file].
      rewrite record_after_write_inline_free;
        [reflexivity | exact Hrec | apply map_path_inline_free].
    + rewrite Hs, Hm, Href, Hrec. reflexivity.
  - destruct (change_map_direct_run e sid data w Hno) as [Hw | H].
    + rewrite Hw, Href, Hrec. reflexivity.
    + cbv zeta in H. destruct H as [_ [Hs Hf]]. rewrite Hs, Hf.
      cbn [shared map_ref]. apply Bool.andb_true_iff. split.
      * destruct (dict_get data "map") as [|b|z|s|l|d] eqn:Hv;
          try reflexivity.
        simpl. rewrite (Hno s eq_refl). reflexivity.
      * apply save_map_record_inline_free. exact Hrec.
Qed.

(** X23. An inline image is never kept: if neither the map of the shared
    state nor the map record holds a [data:image/] string, none does after
    any sequence of events, whatever the environment answers. *)
Theorem no_inline_image_ever (evs : list arrival) (w : world) :
  no_inline_image w = true -> no_inline_image (serve evs w) = true.
Proof.
  revert w. induction evs as [|a evs IH]; intros w H; [exact H|].
  simpl. apply IH, handle_keeps_no_inline_image, H.
Qed.

(** X23 at work: an inline image sent to an empty server. *)
Lemma no_inline_image_ever_witness :
  no_inline_image
    (serve [ {| at_env := env_ok; at_sid := "A";
                at_event := ChangeMap change_to_png |} ] (world_of []))
  = true.
Proof.
  apply no_inline_image_ever. reflexivity.
Defined.

Lemma extract_one_map_image_at_most (e : env) (url : string) (w : world) :
  removals_succeed e ->
  one_map_image_at_most w ->
  one_map_image_at_most (snd (extract_and_save_map_image e url w)).
Proof.
  unfold one_map_image_at_most. intros Hrem Hone.
  assert (Hclean : current_maps (remove_old_maps e (maps_dir (files w))) = []).
  { apply remove_old_maps_clean. intros n _ Hp. apply Hrem, Hp. }
  destruct (extract_cases e url w) as [H | [[_ H] | H]].
  - rewrite H. exact Hone.
  - rewrite H, Hclean. simpl. lia.
  - destruct H as [_ [_ [extension [data [_ [_ [[_ H] | [_ [_ H]]]]]]]]];
      rewrite H, current_maps_dir_write;
      [simpl; lia | exact Hclean | apply startswith_app
      | simpl; lia | exact Hclean | apply startswith_app].
Qed.

Lemma handle_keeps_one_map_image
  (e : env) (sid : string) (ev : event) (w : world) :
  removals_succeed e ->
  one_map_image_at_most w ->
  one_map_image_at_most (run (handle e sid ev) w).
Proof.
  intros Hrem Hone. unfold one_map_image_at_most in *.
  destruct (map_event ev) eqn:Hev.
  2:{ destruct (non_map_event_frame e sid ev w Hev) as [_ [_ Hd]].
      rewrite Hd. exact Hone. }
  destruct ev as [| |data|data|data|data| |]; try discriminate Hev.
  cbn [handle].
  destruct (map_value_cases data) as [[s [Hv Hp]] | Hno].
  - rewrite (change_map_inline_run e sid data w s Hv Hp).
    pose proof (extract_one_map_image_at_most e s w Hrem Hone) as Hx.
    unfold one_map_image_at_most in Hx.
    destruct (fst (extract_and_save_map_image e s w)); exact Hx.
  - destruct (change_map_direct_run e sid data w Hno) as [Hw | H].
    + rewrite Hw. exact Hone.
    + cbv zeta in H. destruct H as [_ [_ Hf]]. rewrite Hf.
      match goal with |- context [save_map e ?v ?w1] =>
        destruct (save_map_frame e v w1) as [_ Hd] end.
      rewrite (Hd Hno). exact Hone.
Qed.

(** X24. As long as every old map image can be removed, the images
    directory never holds more than one map image: if it holds one at
    most, it holds one at most after any sequence of events. *)
Theorem one_map_image_at_most_ever (evs : list arrival) (w : world) :
  List.Forall (fun a => removals_succeed (at_env a)) evs ->
  one_map_image_at_most w ->
  one_map_image_at_most (serve evs w).
Proof.
  revert w. induction evs as [|a evs IH]; intros w Hall Hone; [exact Hone|].
  inversion Hall as [|? ? Ha Hrest]; subst. simpl.
  apply IH; [exact Hrest|]. apply handle_keeps_one_map_image; assumption.
Qed.

(** X24 at work: a PNG image sent to a server that shows a JPEG one. *)
Lemma one_map_image_at_most_ever_witness :
  one_map_image_at_most
    (serve [ {| at_env := env_ok; at_sid := "A";
                at_event := ChangeMap change_to_png |} ] world_with_jpg).
Proof.
  apply one_map_image_at_most_ever.
  - constructor; [|constructor]. intros n _. reflexivity.
  - unfold one_map_image_at_most. simpl. lia.
Defined.

(* ================================================================== *)
(** ** An inline image that does not decode *)

Lemma extract_bad_payload
  (e : env) (subtype params payload : string) (w : world) :
  no_char "/" subtype = true -> no_char ":" subtype = true ->
  no_char ";" subtype = true -> no_char "," subtype = true ->
  no_char "," params = true ->
  b64decode e payload = None ->
  extract_and_save_map_image e (data_url subtype params payload) w
  = (None,
     {| shared := shared w;
        files := set_maps_dir (files w) (remove_old_maps e (maps_dir (files w)));
        log := log w |}).
Proof.
  intros Hslash Hcolon Hsemi Hcomma Hparams Hdec.
  destruct (data_url_parts subtype params payload
              Hslash Hcolon Hsemi Hcomma Hparams) as [H1 [H2 [H3 H4]]].
  unfold extract_and_save_map_image.
  replace (startswith (data_url subtype params payload) "data:image/")
    with true by (symmetry; apply (startswith_app "data:image/")).
  replace (truthy (PStr (data_url subtype params payload))) with true
    by reflexivity.
  cbn [negb orb]. rewrite H1, H2, H3, H4. cbv zeta. unfold_monad.
  rewrite Hdec. reflexivity.
Qed.

(** X25. A [change_map] with an inline image whose header is well formed
    and whose payload the decoder rejects removes the stored map image and
    stores none: when the old images can be removed, no map image is left
    in the directory, while the shared state and the map record still name
    the old one, and nothing is broadcast. *)
Theorem failed_decode_leaves_no_map_image
  (e : env) (sid : string) (data : dict) (w : world)
  (subtype params payload : string) :
  dict_lookup data "map" = Some (PStr (data_url subtype params payload)) ->
  no_char "/" subtype = true -> no_char ":" subtype = true ->
  no_char ";" subtype = true -> no_char "," subtype = true ->
  no_char "," params = true ->
  b64decode e payload = None ->
  removals_succeed e ->
  current_maps (maps_dir (files (run (change_map e sid data) w))) = []
  /\ shared (run (change_map e sid data) w) = shared w
  /\ map_save_file (files (run (change_map e sid data) w))
     = map_save_file (files w)
  /\ done_by (change_map e sid data) w = [].
Proof.
  intros Hmap Hslash Hcolon Hsemi Hcomma Hparams Hdec Hrem.
  pose proof (change_map_inline_run e sid data w _ Hmap
                (startswith_app "data:image/" _)) as Hrun.
  rewrite (extract_bad_payload e subtype params payload w
             Hslash Hcolon Hsemi Hcomma Hparams Hdec) in Hrun.
  cbn [fst snd] in Hrun.
  split; [|split; [|split]].
  - rewrite Hrun. cbn [files maps_dir set_maps_dir].
    apply remove_old_maps_clean. intros n _ Hp. apply Hrem, Hp.
  - rewrite Hrun. reflexivity.
  - rewrite Hrun. reflexivity.
  - apply done_by_log. rewrite Hrun. cbn [log].
    rewrite List.app_nil_r. reflexivity.
Qed.

(** X25 at work: a payload cut short, which the decoder rejects for its
    padding, on a server showing a JPEG map. *)
Lemma failed_decode_leaves_no_map_image_witness :
  current_maps
    (maps_dir
       (files (run (change_map env_ok "A"
                      [("map", PStr (data_url "png" "base64" "QUJ"))])
                 world_with_jpg))) = []
  /\ map_ref
       (shared (run (change_map env_ok "A"
                       [("map", PStr (data_url "png" "base64" "QUJ"))])
                  world_with_jpg))
     = PStr "/maps/current_map.jpg".
Proof.
  destruct (failed_decode_leaves_no_map_image env_ok "A"
              [("map", PStr (data_url "png" "base64" "QUJ"))] world_with_jpg
              "png" "base64" "QUJ"
              eq_refl eq_refl eq_refl eq_refl eq_refl eq_refl eq_refl)
    as [Hnone [Hshared _]].
  - intros n _. reflexivity.
  - split; [exact Hnone|]. rewrite Hshared. reflexivity.
Defined.

(* ================================================================== *)
(** ** Who is told, and how much is done, for one event *)

Lemma request_current_map_log (e : env) (sid : string) (w : world) :
  done_by (request_current_map e sid) w = []
  \/ exists name payload,
       done_by (request_current_map e sid) w = [Emit name payload (ToSid sid)].
Proof.
  unfold request_current_map.
  destruct w as [[ts m] d l].
  destruct (truthy m) eqn:Ht.
  - destruct m as [|b|z|s|l0|d0].
    2: { left. apply done_by_log. unfold_monad. cbn -[truthy].
         rewrite Ht. cbn. rewrite List.app_nil_r. reflexivity. }
    2: { left. apply done_by_log. unfold_monad. cbn -[truthy].
         rewrite Ht. cbn. rewrite List.app_nil_r. reflexivity. }
    3: { left. apply done_by_log. unfold_monad. cbn -[truthy].
         rewrite Ht. cbn. rewrite List.app_nil_r. reflexivity. }
    3: { left. apply done_by_log. unfold_monad. cbn -[truthy].
         rewrite Ht. cbn. rewrite List.app_nil_r. reflexivity. }
    + discriminate Ht.
    + right.
      destruct (negb (startswith s "http://" || startswith s "https://"))
        eqn:Hn; eexists; eexists; apply done_by_log; unfold_monad;
        cbn -[truthy startswith]; rewrite Ht, Hn; reflexivity.
  - right. eexists. eexists. apply done_by_log. unfold_monad.
    cbn -[truthy]. rewrite Ht. reflexivity.
Qed.

(** X26. For one event the handlers call [save_tokens] or [save_map] once
    at most, the two taken together, and send two messages at most (the
    extraction of an inline image, which [change_map] makes before it calls
    [save_map] and which removes and writes image files itself, is not
    counted here). Every action fits the event: only the two request
    events are answered to a single session, the requesting one; a message
    to all but one session skips the sender and reports a token event;
    [save_tokens] is called for token events only and [save_map] for
    [change_map] only. *)
Theorem handle_log_discipline
  (e : env) (sid : string) (ev : event) (w : world) :
  List.forallb (fits_event sid ev) (done_by (handle e sid ev) w) = true
  /\ List.length (List.filter is_save (done_by (handle e sid ev) w)) <= 1
  /\ List.length (List.filter is_emit (done_by (handle e sid ev) w)) <= 2.
Proof.
  destruct ev as [| |data|data|data|data| |]; cbn [handle].
  - unfold connect. replace (done_by (ret tt) w) with (@nil action).
    + simpl. repeat split; lia.
    + symmetry. apply done_by_log. unfold_monad. simpl.
      rewrite List.app_nil_r. reflexivity.
  - replace (done_by (request_initial_state e sid) w)
      with [Emit "initial_state"
              (PDict
                 [("tokens",
                   PList (List.map PDict
                            (tokens (shared (run (request_initial_state e sid)
                                               w)))));
                  ("map",
                   if truthy (map_ref (shared w))
                   then PStr (py_str (py_repr e) (map_ref (shared w))
                              ++ "?t=" ++ str_of_Z (now e))
                   else map_ref (shared w))])
              (ToSid sid)].
    + simpl. rewrite String.eqb_refl. repeat split; lia.
    + symmetry. apply done_by_log. rewrite request_initial_state_run.
      reflexivity.
  - rewrite move_token_log. destruct (found_token _ _); simpl;
      rewrite String.eqb_refl; repeat split; lia.
  - rewrite add_token_log.
    destruct (negb (truthy (PDict data)) || negb (truthy (dict_get data "id")));
      [simpl; repeat split; lia|].
    destruct (found_token _ _); simpl; rewrite String.eqb_refl;
      repeat split; lia.
  - rewrite remove_token_log. destruct (Nat.ltb _ _); simpl;
      rewrite ?String.eqb_refl; repeat split; lia.
  - destruct (change_map_log e sid data w) as [-> | [ok [payload ->]]];
      simpl; repeat split; lia.
  - destruct (request_current_map_log e sid w) as [-> | [name [payload ->]]];
      simpl; rewrite ?String.eqb_refl; repeat split; lia.
  - rewrite clear_all_tokens_log. simpl. rewrite String.eqb_refl.
    repeat split; lia.
Qed.
